(** * InfluxClient: write buffering, batch flush and server reconciliation

    A shallow embedding of [python/influx/influx_client.py].  The driver
    ([InfluxDBClient]), the schema catalog ([Database], [Table],
    [RetentionPolicy], [ContinuousQuery]) and the clocks are external to
    that file: they appear here as the record [World] and as plain
    records whose fields are the attributes the client reads.

    Conventions.
    - A Python [dict] whose iteration order matters (the insert buffer,
      [tables_count]) is an association list kept in insertion order.
    - A Python [dict] only used for lookups ([rp_dict], [cq_dict]) is a
      [gmap].
    - A Python [float] is the rational it denotes, and float arithmetic
      is exact arithmetic.  What the theorems state of a computed
      duration rests on sign tests, [n/n = 1], [x*1 = x], [m/1 = m] and
      the monotonicity of the operations, which binary64 shares with the
      rationals; no theorem states an identity that rounding breaks.
      [int(a/b)] is the integer quotient, which it is for [0 <= a < 2^53];
      the theorems on item counts assume that bound.
    - A method is a function [Store -> Outcome A * Store]: the store is
      returned on the exceptional path too, as Python keeps the
      mutations done before a [raise]. *)

From stdpp Require Import gmap strings list.
From Stdlib Require Import ZArith QArith Lia.

Close Scope Q_scope.
Open Scope string_scope.
Open Scope list_scope.
Open Scope Z_scope.

(** ** Catalog values *)

Inductive Keyword := SELECT | INSERT | DELETE.

(** [Table]: the attributes the client reads, [table.name] and
    [table.retention_policy.name].  Two tables are the same dictionary
    key when they agree on both; within one database a table is known
    by its name. *)
Record Table := {
  table_name : string;
  table_rp : string
}.

#[global] Instance Table_eq_dec : EqDecision Table.
Proof. solve_decision. Defined.

Record RetentionPolicy := {
  rp_name : string;
  rp_duration : string;
  rp_replication : Z;
  rp_shard_duration : string;
  rp_default : bool;
  rp_database : string
}.

(** One entry of [get_list_retention_policies]. *)
Record RPDescription := {
  d_name : string;
  d_duration : string;
  d_shard_group_duration : string;
  d_replica_n : Z;
  d_default : bool
}.

#[global] Instance RPDescription_eq_dec : EqDecision RPDescription.
Proof. solve_decision. Defined.

(** Modelled from the spec: [RetentionPolicy.to_dict] lives in
    [influx/database_tables.py]; the description compared with the
    server's carries the declared duration, replication, shard-group
    duration and default flag, keyed by name. *)
Definition to_dict (rp : RetentionPolicy) : RPDescription :=
  {| d_name := rp_name rp;
     d_duration := rp_duration rp;
     d_shard_group_duration := rp_shard_duration rp;
     d_replica_n := rp_replication rp;
     d_default := rp_default rp |}.

(** [ContinuousQuery]: [cq_to_query] is the text [to_query()] renders. *)
Record ContinuousQuery := {
  cq_name : string;
  cq_database : string;
  cq_select : string;
  cq_resample_opts : option string;
  cq_to_query : string
}.

Inductive Value :=
| VStr (s : string)
| VInt (z : Z)
| VFloat (q : Q)
| VBool (b : bool)
| VKeyword (k : Keyword).

Record InsertQuery := {
  iq_table : Table;
  iq_fields : list (string * Value);
  iq_tags : list (string * Value);
  iq_time_stamp : Z
}.

(** [SelectionQuery]: [sq_to_query] is the text [to_query()] renders. *)
Record SelectionQuery := {
  sq_keyword : Keyword;
  sq_tables : list Table;
  sq_to_query : string
}.

(** A row handed to [insert_dicts_to_buffer]. *)
Definition Row := list (string * Value).

(** The timestamp [split_by_table_def] returns is an [int] or a [str]. *)
Inductive TimeStamp := TsInt (z : Z) | TsStr (s : string).

(** [ResultSet]: the series of a result, each with its rows of values.
    It is falsy when it has no series. *)
Definition ResultSet := list (list (list Value)).

Record Database := {
  db_name : string;
  db_getitem : string -> Table;
  retention_policies : list RetentionPolicy;
  continuous_queries : list ContinuousQuery
}.

(** ** The driver *)

Inductive DriverError :=
| InfluxDBServerError
| InfluxDBClientError
| ConnectionError.

#[global] Instance DriverError_eq_dec : EqDecision DriverError.
Proof. solve_decision. Defined.

(** The requests the client sends through [self.__client]. *)
Inductive DriverCall :=
| write_points (points : list string) (database retention_policy : string)
               (batch_size : Z)
| query (query_str : string) (database : string)
| get_list_retention_policies (database : string)
| create_retention_policy (rp : RetentionPolicy)
| alter_retention_policy (rp : RetentionPolicy)
| get_list_continuous_queries
| drop_continuous_query (name database : string)
| create_continuous_query (cq : ContinuousQuery)
| close.

(** Everything the file calls but does not define.  A driver answer
    and a clock reading may depend on the requests sent so far. *)
Record World := {
  (** [write_points], [create_*], [alter_*], [drop_*]: [None] is a
      normal return. *)
  driver_do : list DriverCall -> DriverCall -> option DriverError;
  driver_query : list DriverCall -> DriverCall -> DriverError + ResultSet;
  driver_list_rp : list DriverCall -> DriverCall ->
                   DriverError + list RPDescription;
  driver_list_cq : list DriverCall -> DriverCall ->
                   DriverError + list (gmap string (list (string * string)));
  (** [end_time - start_time] of the two [time.perf_counter()] readings
      taken around the request that follows the given history. *)
  perf_elapsed : list DriverCall -> Q;
  (** [SppUtils.get_actual_time_sec()]: the reading number [n] (from 0)
      taken after the given history.  The metrics recorder reads the
      clock once for each record it builds. *)
  get_actual_time_sec : list DriverCall -> nat -> Z;
  (** [table.split_by_table_def(mydict)]; [None] is its [ValueError]. *)
  split_by_table_def : Table -> Row ->
                       option (list (string * Value) * list (string * Value) * TimeStamp);
  (** [int(timestamp)] on a [str]; [None] is its [ValueError]. *)
  py_int : string -> option Z;
  (** [InsertQuery.to_query()]. *)
  to_query : InsertQuery -> string
}.

(** ** Store, exceptions and the method monad *)

Inductive Exception :=
| ValueError (msg : string)
| DriverException (e : DriverError).

Inductive Outcome (A : Type) :=
| Return (a : A)
| Raise (e : Exception).
Arguments Return {A} a.
Arguments Raise {A} e.

(** [__insert_buffer] is declared in the class body and only ever
    mutated in place ([d[k] = v], [d.clear()]); it therefore sits in the
    store, not in the instance.  [calls] is the history of the calls
    made on the driver, oldest first. *)
Record Store := {
  __insert_buffer : list (Table * list InsertQuery);
  calls : list DriverCall
}.

(** An instance: the attributes [__init__] sets that the methods read. *)
Record InfluxClient := {
  database : Database
}.

(** [self.__metrics_table = self.database['influx_metrics']] *)
Definition __metrics_table (self : InfluxClient) : Table :=
  db_getitem (database self) "influx_metrics".

Definition __query_max_batch_size : Z := 10000.

Definition M (A : Type) : Type := Store -> Outcome A * Store.

Definition ret {A} (a : A) : M A := fun s => (Return a, s).
Definition raise {A} (e : Exception) : M A := fun s => (Raise e, s).
Definition bind {A B} (m : M A) (k : A -> M B) : M B := fun s =>
  match m s with
  | (Return a, s') => k a s'
  | (Raise e, s') => (Raise e, s')
  end.

Notation "'do' x <- m ; k" := (bind m (fun x => k))
  (at level 10, x name, m at level 100, k at level 200).

Definition set_buffer (b : list (Table * list InsertQuery)) (s : Store) : Store :=
  {| __insert_buffer := b; calls := calls s |}.

Definition log_call (c : DriverCall) (s : Store) : Store :=
  {| __insert_buffer := __insert_buffer s; calls := calls s ++ [c] |}.

(** ** Insertion-ordered dictionaries keyed by [Table] *)

Section Dict.
Context {V : Type}.

(** [d.get(k, None)] *)
Fixpoint dict_get (k : Table) (d : list (Table * V)) : option V :=
  match d with
  | [] => None
  | (k', v) :: d' => if decide (k = k') then Some v else dict_get k d'
  end.

(** [d[k] = v]: an existing key keeps its position, a new one goes last. *)
Fixpoint dict_set (k : Table) (v : V) (d : list (Table * V)) : list (Table * V) :=
  match d with
  | [] => [(k, v)]
  | (k', v') :: d' =>
      if decide (k = k') then (k, v) :: d' else (k', v') :: dict_set k v d'
  end.

(** [k in d] *)
Definition dict_mem (k : Table) (d : list (Table * V)) : bool :=
  match dict_get k d with Some _ => true | None => false end.
End Dict.

(** [len(xs)] as a Python [int]. *)
Definition len {A} (xs : list A) : Z := Z.of_nat (length xs).

(** ** The methods of [InfluxClient] *)

Section Methods.
Variable w : World.

(** *** [__insert_metrics_to_buffer] *)

(** ['duration_ms': duration_s*1000*(max(item_count, 1)/batch_size)] *)
Definition duration_ms (duration_s : Q) (item_count batch_size : Z) : Q :=
  (duration_s * 1000 * (inject_Z (Z.max item_count 1) / inject_Z batch_size))%Q.

(** The [InsertQuery] built for one item of [tables_count]. *)
Definition metrics_query (self : InfluxClient) (keyword : Keyword)
    (duration_s : Q) (batch_size : Z) (time_stamp : Z)
    (item : Table * Z) : InsertQuery :=
  {| iq_table := __metrics_table self;
     iq_fields := [("duration_ms", VFloat (duration_ms duration_s item.2 batch_size));
                   ("item_count", VInt item.2)];
     iq_tags := [("keyword", VKeyword keyword);
                 ("tableName", VStr (table_name item.1))];
     iq_time_stamp := time_stamp |}.

(** The list [querys] of one call: one record per item of
    [tables_count], each stamped by a clock reading of its own. *)
Definition querys (self : InfluxClient) (keyword : Keyword)
    (tables_count : list (Table * Z)) (duration_s : Q) (batch_size : Z)
    (history : list DriverCall) : list InsertQuery :=
  imap (fun n item =>
          metrics_query self keyword duration_s batch_size
            (get_actual_time_sec w history n) item) tables_count.

(** The [None] and [isinstance] checks are discharged by the types. *)
Definition __insert_metrics_to_buffer (self : InfluxClient)
    (keyword : Keyword) (tables_count : list (Table * Z))
    (duration_s : Q) (batch_size : Z) : M unit := fun s =>
  match tables_count with
  | [] =>
      (Raise (ValueError "need at least one entry of a table in tables_count."), s)
  | _ :: _ =>
      if Qle_bool duration_s 0 then
        (Raise (ValueError "only positive values are supported for duration. Must be not 0"), s)
      else if batch_size <? 1 then
        (Raise (ValueError "only positive values are supported for batch_size. Must be not 0"), s)
      else
        let querys :=
          querys self keyword tables_count duration_s batch_size (calls s) in
        let mt := __metrics_table self in
        (Return tt,
         set_buffer
           (dict_set mt (default [] (dict_get mt (__insert_buffer s)) ++ querys)
              (__insert_buffer s)) s)
  end.

(** *** [flush_insert_buffer] *)

(** The request sent for one item of [insert_list]. *)
Definition write_request (self : InfluxClient) (table : Table)
    (queries_str : list string) : DriverCall :=
  write_points queries_str (db_name (database self)) (table_rp table)
    __query_max_batch_size.

(** The loop [for (table, queries_str) in insert_list].  The [except]
    clause names [InfluxDBServerError] and [InfluxDBClientError]. *)
Fixpoint send_insert_list (self : InfluxClient)
    (insert_list : list (Table * list string)) : M unit := fun s =>
  match insert_list with
  | [] => (Return tt, s)
  | (table, queries_str) :: rest =>
      let request := write_request self table queries_str in
      let duration := perf_elapsed w (calls s) in
      let s1 := log_call request s in
      match driver_do w (calls s) request with
      | Some ConnectionError => (Raise (DriverException ConnectionError), s1)
      | Some InfluxDBServerError | Some InfluxDBClientError | None =>
          (do _ <- __insert_metrics_to_buffer self INSERT
                     [(table, len queries_str)] duration (len queries_str);
           send_insert_list self rest) s1
      end
  end.

(** [insert_list]: every table of the buffer with its rendered lines. *)
Definition snapshot (buffer : list (Table * list InsertQuery))
    : list (Table * list string) :=
  map (fun item => (item.1, map (to_query w) item.2)) buffer.

Definition flush_insert_buffer (self : InfluxClient) : M unit := fun s =>
  match __insert_buffer s with
  | [] => (Return tt, s)
  | _ :: _ =>
      let insert_list := snapshot (__insert_buffer s) in
      send_insert_list self insert_list (set_buffer [] s)
  end.

(** *** [insert_dicts_to_buffer] *)

(** The body of the [try] for one [mydict]; [None] is the [ValueError]
    the loop catches. *)
Definition make_insert_query (table : Table) (mydict : Row) : option InsertQuery :=
  match split_by_table_def w table mydict with
  | None => None
  | Some (tags, values, TsInt timestamp) =>
      Some {| iq_table := table; iq_fields := values; iq_tags := tags;
              iq_time_stamp := timestamp |}
  | Some (tags, values, TsStr timestamp) =>
      match py_int w timestamp with
      | None => None
      | Some timestamp =>
          Some {| iq_table := table; iq_fields := values; iq_tags := tags;
                  iq_time_stamp := timestamp |}
      end
  end.

Definition insert_dicts_to_buffer (self : InfluxClient) (table_name : string)
    (list_with_dicts : option (list Row)) : M unit := fun s =>
  match list_with_dicts with
  | None => (Raise (ValueError "missing list with dictonarys in insert"), s)
  | Some rows =>
      if decide (table_name = "") then
        (Raise (ValueError "table name needs to be set in insert"), s)
      else
        match rows with
        | [] => (Return tt, s)
        | _ :: _ =>
            let table := db_getitem (database self) table_name in
            let query_buffer := omap (make_insert_query table) rows in
            let table_buffer :=
              default [] (dict_get table (__insert_buffer s)) ++ query_buffer in
            let s1 := set_buffer (dict_set table table_buffer (__insert_buffer s)) s in
            if len (default [] (dict_get table (__insert_buffer s1)))
               >? 5 * __query_max_batch_size
            then flush_insert_buffer self s1
            else (Return tt, s1)
        end
  end.

(** *** [disconnect] *)

(** The [try] around the two flushes catches [ValueError] only. *)
Definition disconnect (self : InfluxClient) : M unit := fun s =>
  match (do _ <- flush_insert_buffer self; flush_insert_buffer self) s with
  | (Return _, s') | (Raise (ValueError _), s') => (Return tt, log_call close s')
  | (Raise (DriverException e), s') => (Raise (DriverException e), s')
  end.

(** *** [send_selection_query] *)

(** [len(result.raw['series'][0]['values'])] when [result] is truthy. *)
Definition result_length (result : ResultSet) : Z :=
  match result with
  | [] => 0
  | series :: _ => len series
  end.

(** [tables_count[table] = int(length/len(query.tables))] for each
    table.  The float quotient, truncated, is the integer quotient as
    long as [length < 2^53]. *)
Definition selection_tables_count (tables : list Table) (length : Z)
    : list (Table * Z) :=
  foldl (fun tables_count table => dict_set table (length / len tables) tables_count)
    [] tables.

(** [send_selection_query] from [query.to_query()] on. *)
Definition send_query (self : InfluxClient) (q : SelectionQuery)
    : M ResultSet := fun s =>
  let request := query (sq_to_query q) (db_name (database self)) in
  let duration := perf_elapsed w (calls s) in
  let s1 := log_call request s in
  match driver_query w (calls s) request with
  | inl ConnectionError => (Raise (DriverException ConnectionError), s1)
  | answer =>
      let result : ResultSet :=
        match answer with inr result => result | inl _ => [] end in
      (do _ <- __insert_metrics_to_buffer self (sq_keyword q)
                 (selection_tables_count (sq_tables q) (result_length result))
                 duration 1;
       ret result) s1
  end.

(** The loop over [query.tables] flushes at the first buffered table
    and breaks.  The [isinstance] check is discharged by the type. *)
Definition send_selection_query (self : InfluxClient) (q : SelectionQuery)
    : M ResultSet := fun s =>
  (do _ <- (if existsb (fun table => dict_mem table (__insert_buffer s)) (sq_tables q)
            then flush_insert_buffer self else ret tt);
   send_query self q) s.

(** *** [check_create_rp] and [check_create_cq] *)

(** One driver call per element, stopping at the first error. *)
Fixpoint driver_each {X : Type} (request_of : X -> DriverCall) (xs : list X)
    : M unit := fun s =>
  match xs with
  | [] => (Return tt, s)
  | x :: rest =>
      let request := request_of x in
      let s1 := log_call request s in
      match driver_do w (calls s) request with
      | Some e => (Raise (DriverException e), s1)
      | None => driver_each request_of rest s1
      end
  end.

(** [rp_dict[result['name']] = result] for each result. *)
Definition make_rp_dict (results : list RPDescription) : gmap string RPDescription :=
  foldl (fun rp_dict result => <[d_name result := result]> rp_dict) ∅ results.

(** The loop over [self.database.retention_policies]. *)
Fixpoint scan_retention_policies (rp_dict : gmap string RPDescription)
    (rps : list RetentionPolicy)
    (add_rp_list alter_rp_list : list RetentionPolicy) (default_used : bool)
    : Outcome (list RetentionPolicy * list RetentionPolicy) :=
  match rps with
  | [] => Return (add_rp_list, alter_rp_list)
  | retention_policy :: rest =>
      if rp_default retention_policy && default_used then
        Raise (ValueError "multiple Retention Policies are declared as default")
      else
        let default_used := default_used || rp_default retention_policy in
        match rp_dict !! rp_name retention_policy with
        | None =>
            scan_retention_policies rp_dict rest
              (add_rp_list ++ [retention_policy]) alter_rp_list default_used
        | Some result_rp =>
            if decide (result_rp = to_dict retention_policy) then
              scan_retention_policies rp_dict rest
                add_rp_list alter_rp_list default_used
            else
              scan_retention_policies rp_dict rest
                add_rp_list (alter_rp_list ++ [retention_policy]) default_used
        end
  end.

(** The body of the [try] of [check_create_rp]. *)
Definition check_create_rp_body (self : InfluxClient) : M unit := fun s =>
  let request := get_list_retention_policies (db_name (database self)) in
  let s1 := log_call request s in
  match driver_list_rp w (calls s) request with
  | inl e => (Raise (DriverException e), s1)
  | inr results =>
      match scan_retention_policies (make_rp_dict results)
              (retention_policies (database self)) [] [] false with
      | Raise e => (Raise e, s1)
      | Return (add_rp_list, alter_rp_list) =>
          (do _ <- driver_each create_retention_policy add_rp_list;
           driver_each alter_retention_policy alter_rp_list) s1
      end
  end.

(** The [except] clause names [ValueError] and the three driver errors. *)
Definition check_create_rp (self : InfluxClient) : M unit := fun s =>
  match check_create_rp_body self s with
  | (Return a, s') => (Return a, s')
  | (Raise (ValueError _), s') | (Raise (DriverException _), s') =>
      (Raise (ValueError "Retention Policies check failed"), s')
  end.

(** The first [result.get(self.database.name, None)] that is not [None]. *)
Fixpoint find_cq_result_list (name : string)
    (results : list (gmap string (list (string * string))))
    : option (list (string * string)) :=
  match results with
  | [] => None
  | result :: rest =>
      match result !! name with
      | Some cq_result_list => Some cq_result_list
      | None => find_cq_result_list name rest
      end
  end.

(** [cq_dict[cq_result['name']] = cq_result['query']] for each result. *)
Definition make_cq_dict (cq_result_list : list (string * string)) : gmap string string :=
  foldl (fun cq_dict cq_result => <[cq_result.1 := cq_result.2]> cq_dict)
    ∅ cq_result_list.

(** The loop over [self.database.continuous_queries]. *)
Fixpoint scan_continuous_queries (cq_dict : gmap string string)
    (cqs : list ContinuousQuery)
    (add_cq_list alter_cq_list : list ContinuousQuery)
    : list ContinuousQuery * list ContinuousQuery :=
  match cqs with
  | [] => (add_cq_list, alter_cq_list)
  | continuous_query :: rest =>
      match cq_dict !! cq_name continuous_query with
      | None =>
          scan_continuous_queries cq_dict rest
            (add_cq_list ++ [continuous_query]) alter_cq_list
      | Some result_cq =>
          if decide (result_cq = cq_to_query continuous_query) then
            scan_continuous_queries cq_dict rest add_cq_list alter_cq_list
          else
            scan_continuous_queries cq_dict rest
              add_cq_list (alter_cq_list ++ [continuous_query])
      end
  end.

Definition drop_request (cq : ContinuousQuery) : DriverCall :=
  drop_continuous_query (cq_name cq) (cq_database cq).

(** The body of the [try] of [check_create_cq]. *)
Definition check_create_cq_body (self : InfluxClient) : M unit := fun s =>
  let request := get_list_continuous_queries in
  let s1 := log_call request s in
  match driver_list_cq w (calls s) request with
  | inl e => (Raise (DriverException e), s1)
  | inr results =>
      let cq_result_list :=
        default [] (find_cq_result_list (db_name (database self)) results) in
      let '(add_cq_list, alter_cq_list) :=
        scan_continuous_queries (make_cq_dict cq_result_list)
          (continuous_queries (database self)) [] [] in
      (do _ <- driver_each drop_request alter_cq_list;
       driver_each create_continuous_query (add_cq_list ++ alter_cq_list)) s1
  end.

Definition check_create_cq (self : InfluxClient) : M unit := fun s =>
  match check_create_cq_body self s with
  | (Return a, s') => (Return a, s')
  | (Raise (ValueError _), s') | (Raise (DriverException _), s') =>
      (Raise (ValueError "Continuous Query check failed"), s')
  end.
End Methods.

(** ** Specification vocabulary *)

Section Vocabulary.
Variable w : World.

(** The metrics records a run of [send_insert_list] builds when no
    step raises: one per item, each from the duration measured around
    that item's request. *)
Fixpoint flush_metrics (self : InfluxClient) (history : list DriverCall)
    (insert_list : list (Table * list string)) : list InsertQuery :=
  match insert_list with
  | [] => []
  | (table, queries_str) :: rest =>
      let history' := history ++ [write_request self table queries_str] in
      metrics_query self INSERT (perf_elapsed w history) (len queries_str)
        (get_actual_time_sec w history' 0%nat) (table, len queries_str)
      :: flush_metrics self history' rest
  end.

(** The requests a complete run of [send_insert_list] sends. *)
Definition flush_requests (self : InfluxClient)
    (insert_list : list (Table * list string)) : list DriverCall :=
  map (fun item => write_request self item.1 item.2) insert_list.

(** The buffer after [metrics] were added under the metrics table by
    successive calls of [__insert_metrics_to_buffer]. *)
Definition with_metrics (self : InfluxClient) (metrics : list InsertQuery)
    (buffer : list (Table * list InsertQuery)) : list (Table * list InsertQuery) :=
  match metrics with
  | [] => buffer
  | _ :: _ =>
      dict_set (__metrics_table self)
        (default [] (dict_get (__metrics_table self) buffer) ++ metrics) buffer
  end.

(** The store a complete run of [send_insert_list] ends in. *)
Definition flushed (self : InfluxClient)
    (insert_list : list (Table * list string)) (s : Store) : Store :=
  {| __insert_buffer :=
       with_metrics self (flush_metrics self (calls s) insert_list)
         (__insert_buffer s);
     calls := calls s ++ flush_requests self insert_list |}.

(** The store [insert_dicts_to_buffer] reaches before its safeguard. *)
Definition appended (self : InfluxClient) (table_name : string)
    (rows : list Row) (s : Store) : Store :=
  let table := db_getitem (database self) table_name in
  set_buffer
    (dict_set table
       (default [] (dict_get table (__insert_buffer s))
          ++ omap (make_insert_query w table) rows)
       (__insert_buffer s)) s.

(** The store after [n] calls of [flush_insert_buffer] in a row, with
    nothing ingested in between. *)
Definition repeated_flush (self : InfluxClient) (n : nat) (s : Store) : Store :=
  Nat.iter n (fun s0 => (flush_insert_buffer w self s0).2) s.

(** The pending count of a table. *)
Definition pending (table : Table) (s : Store) : Z :=
  len (default [] (dict_get table (__insert_buffer s))).

(** A record the metrics recorder of [self] built. *)
Definition is_metrics_record (self : InfluxClient) (m : InsertQuery) : Prop :=
  exists keyword duration_s batch_size time_stamp item,
    m = metrics_query self keyword duration_s batch_size time_stamp item.

(** A buffer that holds nothing but such records, under the metrics
    table of [self]. *)
Definition only_metrics (self : InfluxClient)
    (buffer : list (Table * list InsertQuery)) : Prop :=
  exists metrics,
    buffer = with_metrics self metrics [] /\ Forall (is_metrics_record self) metrics.

(** The request [send_query] sends. *)
Definition query_request (self : InfluxClient) (q : SelectionQuery) : DriverCall :=
  query (sq_to_query q) (db_name (database self)).

(** The driver never answers a call with a transport error. *)
Definition no_connection_error : Prop :=
  forall history request, driver_do w history request <> Some ConnectionError.

(** Every measured duration is positive. *)
Definition positive_durations : Prop :=
  forall history, (0 < perf_elapsed w history)%Q.

(** The driver accepts every call. *)
Definition driver_accepts : Prop :=
  forall history request, driver_do w history request = None.

(** The server's view of a desired continuous query, by name. *)
Definition cq_absent (cq_dict : gmap string string) (cq : ContinuousQuery) : Prop :=
  cq_dict !! cq_name cq = None.
Definition cq_differs (cq_dict : gmap string string) (cq : ContinuousQuery) : Prop :=
  exists result_cq, cq_dict !! cq_name cq = Some result_cq /\ result_cq <> cq_to_query cq.
Definition cq_same (cq_dict : gmap string string) (cq : ContinuousQuery) : Prop :=
  cq_dict !! cq_name cq = Some (cq_to_query cq).

(** The dictionary [check_create_cq] builds from the server's answer. *)
Definition server_cq_dict (self : InfluxClient)
    (results : list (gmap string (list (string * string)))) : gmap string string :=
  make_cq_dict (default [] (find_cq_result_list (db_name (database self)) results)).
End Vocabulary.

(** The number of policies marked default. *)
Definition count_default (rps : list RetentionPolicy) : nat :=
  length (filter (fun rp => rp_default rp = true) rps).

(** The sum of the [duration_ms] recorded for a [tables_count]. *)
Definition total_duration_ms (duration_s : Q) (batch_size : Z)
    (tables_count : list (Table * Z)) : Q :=
  foldr (fun item acc => (duration_ms duration_s item.2 batch_size + acc)%Q) 0%Q
    tables_count.

Definition total_count (tables_count : list (Table * Z)) : Z :=
  foldr (fun item acc => item.2 + acc) 0 tables_count.

(** ** Concrete catalogs, worlds and stores *)

Module Demo.
Definition table_of (name : string) : Table :=
  {| table_name := name; table_rp := "autogen" |}.

Definition db : Database :=
  {| db_name := "sppmon"; db_getitem := table_of;
     retention_policies := []; continuous_queries := [] |}.

Definition client : InfluxClient := {| database := db |}.

(** A second instance, on another database. *)
Definition other_client : InfluxClient :=
  {| database :=
       {| db_name := "other"; db_getitem := table_of;
          retention_policies := []; continuous_queries := [] |} |}.

(** A row with no column fails classification, any other row is a
    field set stamped 0. *)
Definition split (table : Table) (mydict : Row)
    : option (list (string * Value) * list (string * Value) * TimeStamp) :=
  match mydict with
  | [] => None
  | _ :: _ => Some ([], mydict, TsInt 0)
  end.

(** Every call succeeds and takes one second. *)
Definition calm : World :=
  {| driver_do := fun _ _ => None;
     driver_query := fun _ _ => inr [];
     driver_list_rp := fun _ _ => inr [];
     driver_list_cq := fun _ _ => inr [];
     perf_elapsed := fun _ => 1%Q;
     get_actual_time_sec := fun _ _ => 0;
     split_by_table_def := split;
     py_int := fun _ => None;
     to_query := fun q => table_name (iq_table q) |}.

(** As [calm], with a clock that advances by one at every reading. *)
Definition ticking : World :=
  {| driver_do := fun _ _ => None;
     driver_query := fun _ _ => inr [];
     driver_list_rp := fun _ _ => inr [];
     driver_list_cq := fun _ _ => inr [];
     perf_elapsed := fun _ => 1%Q;
     get_actual_time_sec := fun history n => Z.of_nat (length history + n);
     split_by_table_def := split;
     py_int := fun _ => None;
     to_query := fun q => table_name (iq_table q) |}.

(** The connection is down: every call raises [ConnectionError]. *)
Definition offline : World :=
  {| driver_do := fun _ _ => Some ConnectionError;
     driver_query := fun _ _ => inl ConnectionError;
     driver_list_rp := fun _ _ => inl ConnectionError;
     driver_list_cq := fun _ _ => inl ConnectionError;
     perf_elapsed := fun _ => 1%Q;
     get_actual_time_sec := fun _ _ => 0;
     split_by_table_def := split;
     py_int := fun _ => None;
     to_query := fun q => table_name (iq_table q) |}.

(** The server rejects every request with [InfluxDBServerError]. *)
Definition rejecting : World :=
  {| driver_do := fun _ _ => Some InfluxDBServerError;
     driver_query := fun _ _ => inl InfluxDBServerError;
     driver_list_rp := fun _ _ => inl InfluxDBServerError;
     driver_list_cq := fun _ _ => inl InfluxDBServerError;
     perf_elapsed := fun _ => 1%Q;
     get_actual_time_sec := fun _ _ => 0;
     split_by_table_def := split;
     py_int := fun _ => None;
     to_query := fun q => table_name (iq_table q) |}.

Definition fresh : Store := {| __insert_buffer := []; calls := [] |}.

Definition table_a : Table := table_of "A".

Definition row : Row := [("field", VInt 1)].

Definition record (name : string) : InsertQuery :=
  {| iq_table := table_of name; iq_fields := row; iq_tags := [];
     iq_time_stamp := 0 |}.

(** Tables A and B with one pending record each. *)
Definition two_tables : Store :=
  {| __insert_buffer := [(table_of "A", [record "A"]); (table_of "B", [record "B"])];
     calls := [] |}.

(** Table A maps to an empty sequence, B has one pending record. *)
Definition empty_then_b : Store :=
  {| __insert_buffer := [(table_of "A", []); (table_of "B", [record "B"])];
     calls := [] |}.

Definition select_a : SelectionQuery :=
  {| sq_keyword := SELECT; sq_tables := [table_of "A"];
     sq_to_query := "SELECT * FROM A" |}.

Definition policy (name : string) (is_default : bool) : RetentionPolicy :=
  {| rp_name := name; rp_duration := "90d"; rp_replication := 1;
     rp_shard_duration := "7d"; rp_default := is_default;
     rp_database := "sppmon" |}.

(** A catalog declaring two default retention policies. *)
Definition two_defaults : InfluxClient :=
  {| database :=
       {| db_name := "sppmon"; db_getitem := table_of;
          retention_policies := [policy "rp_days_90" true; policy "rp_inf" true];
          continuous_queries := [] |} |}.

Definition cq (name text : string) : ContinuousQuery :=
  {| cq_name := name; cq_database := "sppmon"; cq_select := text;
     cq_resample_opts := None; cq_to_query := text |}.

(** Three desired continuous queries; the server below reports the
    second with another text and the third as declared. *)
Definition three_cqs : InfluxClient :=
  {| database :=
       {| db_name := "sppmon"; db_getitem := table_of;
          retention_policies := [];
          continuous_queries := [cq "cq_new" "q1"; cq "cq_changed" "q2"; cq "cq_same" "q3"] |} |}.

Definition reporting : World :=
  {| driver_do := fun _ _ => None;
     driver_query := fun _ _ => inr [];
     driver_list_rp := fun _ _ => inr [];
     driver_list_cq := fun _ _ =>
       inr [ {[ "sppmon" := [("cq_changed", "q2_old"); ("cq_same", "q3")] ]} ];
     perf_elapsed := fun _ => 1%Q;
     get_actual_time_sec := fun _ _ => 0;
     split_by_table_def := split;
     py_int := fun _ => None;
     to_query := fun q => table_name (iq_table q) |}.
End Demo.

(** ** [connect] and [update_row] *)

(** The two driver calls only [connect] makes.  They are not among
    [DriverCall]: [calls] keeps recording the requests that follow
    them. *)
Record Login := {
  (** [self.__client.ping()]: the server version. *)
  ping_answer : list DriverCall -> DriverError + string;
  (** [self.__client.create_database(name)]; [None] is a normal return. *)
  create_database_answer : list DriverCall -> string -> option DriverError
}.

(** What [update_row] calls outside this file. *)
Record QueryTools := {
  (** [SelectionQuery(keyword, fields, tables, where_str).to_query()] *)
  selection_to_query : Keyword -> option (list string) -> list Table ->
                       option string -> string;
  (** [list(result.get_points())] *)
  get_points : ResultSet -> list Row
}.

(** [row[key] = value] on a row: an existing column keeps its place. *)
Fixpoint row_set (key : string) (value : Value) (row : Row) : Row :=
  match row with
  | [] => [(key, value)]
  | (key', value') :: row' =>
      if decide (key = key') then (key, value) :: row'
      else (key', value') :: row_set key value row'
  end.

(** [row[key]] *)
Fixpoint row_get (key : string) (row : Row) : option Value :=
  match row with
  | [] => None
  | (key', value) :: row' =>
      if decide (key = key') then Some value else row_get key row'
  end.

(** [for (key, value) in dic.items(): row[key] = value] *)
Definition row_update (dic : list (string * Value)) (row : Row) : Row :=
  foldl (fun row item => row_set item.1 item.2 row) row dic.

(** [not dic] for an optional dictionary. *)
Definition falsy {A} (dic : option (list A)) : bool :=
  match dic with
  | None | Some [] => true
  | Some (_ :: _) => false
  end.

Section Session.
Variable w : World.
Variable login : Login.
Variable tools : QueryTools.



(** The [SelectionQuery] objects [update_row] builds. *)
Definition row_query (keyword : Keyword) (fields : option (list string))
    (table : Table) (where_str : option string) : SelectionQuery :=
  {| sq_keyword := keyword; sq_tables := [table];
     sq_to_query := selection_to_query tools keyword fields [table] where_str |}.

(** The row [update_row] inserts for a row it selected: the new tags
    are written first, the new fields after them. *)
Definition updated_row (tag_dic : option (list (string * string)))
    (field_dic : option (list (string * Value))) (row : Row) : Row :=
  let row := if falsy tag_dic then row
             else row_update (map (fun item => (item.1, VStr item.2))
                                (default [] tag_dic)) row in
  if falsy field_dic then row else row_update (default [] field_dic) row.

Definition update_row (self : InfluxClient) (table_name : string)
    (tag_dic : option (list (string * string)))
    (field_dic : option (list (string * Value)))
    (where_str : option string) : M unit := fun s =>
  if decide (table_name = "") then
    (Raise (ValueError "Need table_name to update row"), s)
  else if falsy tag_dic && falsy field_dic then
    (Raise (ValueError
              (String.append "Need either new field or tag to update row in table "
                 table_name)), s)
  else
    let table := db_getitem (database self) table_name in
    (do result <- send_selection_query w self
                    (row_query SELECT (Some ["*"]) table where_str);
     match get_points tools result with
     | [] => ret tt
     | result_list =>
         do _ <- (if falsy tag_dic then ret []
                  else send_selection_query w self
                         (row_query DELETE None table where_str));
         insert_dicts_to_buffer w self table_name
           (Some (map (updated_row tag_dic field_dic) result_list))
     end) s.
End Session.

(** ** More specification vocabulary *)

(** A [write_points] request of [self]: to its database, with the
    maximum batch size. *)
Definition is_write_request (self : InfluxClient) (request : DriverCall) : Prop :=
  exists points retention_policy,
    request = write_points points (db_name (database self)) retention_policy
                __query_max_batch_size.

(** The server's view of a desired retention policy, by name. *)
Definition rp_absent (rp_dict : gmap string RPDescription) (rp : RetentionPolicy) : Prop :=
  rp_dict !! rp_name rp = None.
Definition rp_differs (rp_dict : gmap string RPDescription) (rp : RetentionPolicy) : Prop :=
  exists result_rp, rp_dict !! rp_name rp = Some result_rp /\ result_rp <> to_dict rp.
Definition rp_same (rp_dict : gmap string RPDescription) (rp : RetentionPolicy) : Prop :=
  rp_dict !! rp_name rp = Some (to_dict rp).

(** The ways a flush can end. *)
Definition flush_outcome (r : Outcome unit) : Prop :=
  r = Return tt \/
  r = Raise (DriverException ConnectionError) \/
  r = Raise (ValueError "only positive values are supported for duration. Must be not 0") \/
  r = Raise (ValueError "only positive values are supported for batch_size. Must be not 0").

(** What the metrics record of one flushed table says, [history] being
    the requests made before the table's own: the duration is the one
    measured around the table's request, the time stamp is read after
    it. *)
Definition records_batch (w : World) (self : InfluxClient)
    (history : list DriverCall) (item : Table * list InsertQuery)
    (m : InsertQuery) : Prop :=
  iq_table m = __metrics_table self /\
  iq_tags m = [("keyword", VKeyword INSERT); ("tableName", VStr (table_name item.1))] /\
  iq_time_stamp m
  = get_actual_time_sec w
      (history ++ [write_request self item.1 (map (to_query w) item.2)]) 0 /\
  exists d,
    iq_fields m = [("duration_ms", VFloat d); ("item_count", VInt (len item.2))] /\
    (d == perf_elapsed w history * 1000)%Q.

(** The driver accepts every request of [requests], made one after the
    other after [history]. *)
Definition accepts_all (w : World) (history requests : list DriverCall) : Prop :=
  forall before request after,
    requests = before ++ request :: after ->
    driver_do w (history ++ before) request = None.

(** [sent] is what a loop over [plan] that stops at the first refusal
    makes of it after [history], ending in [r]: the whole plan, all
    accepted, when [r] is a return; otherwise the plan up to the first
    request the driver refuses, that request included. *)
Definition stops_at_first_refusal (w : World) (history plan sent : list DriverCall)
    (r : Outcome unit) : Prop :=
  (r = Return tt /\ sent = plan /\ accepts_all w history plan) \/
  (r <> Return tt /\
   exists before request after e,
     plan = before ++ request :: after /\
     sent = before ++ [request] /\
     accepts_all w history before /\
     driver_do w (history ++ before) request = Some e).

(** A driver loop over the requests themselves. *)
Definition send_requests (w : World) (requests : list DriverCall) : M unit :=
  driver_each w (fun request => request) requests.

(** The tables of a list in the order of their first mention. *)
Fixpoint first_mentions (tables : list Table) : list Table :=
  match tables with
  | [] => []
  | table :: rest =>
      table :: filter (fun table' => table' <> table) (first_mentions rest)
  end.

(** The keys of a dictionary, in iteration order. *)
Definition keys {V} (d : list (Table * V)) : list Table := map fst d.

(** More concrete values. *)
Module Demo2.

(** The server does not answer the ping. *)
Definition silent : Login :=
  {| ping_answer := fun _ => inl ConnectionError;
     create_database_answer := fun _ _ => None |}.

(** A catalog with an absent, a changed and an unchanged policy for the
    server below. *)
Definition three_rps : InfluxClient :=
  {| database :=
       {| db_name := "sppmon"; db_getitem := Demo.table_of;
          retention_policies :=
            [Demo.policy "rp_new" false; Demo.policy "rp_changed" false;
             Demo.policy "rp_same" true];
          continuous_queries := [] |} |}.

Definition reporting_rps : World :=
  {| driver_do := fun _ _ => None;
     driver_query := fun _ _ => inr [];
     driver_list_rp := fun _ _ =>
       inr [ {| d_name := "rp_changed"; d_duration := "30d";
                d_shard_group_duration := "7d"; d_replica_n := 1;
                d_default := false |};
             to_dict (Demo.policy "rp_same" true) ];
     driver_list_cq := fun _ _ => inr [];
     perf_elapsed := fun _ => 1%Q;
     get_actual_time_sec := fun _ _ => 0;
     split_by_table_def := Demo.split;
     py_int := fun _ => None;
     to_query := fun q => table_name (iq_table q) |}.

(** The server lists what the catalogs of [three_rps] and
    [Demo.three_cqs] declare, and rejects every other request. *)
Definition in_sync : World :=
  {| driver_do := fun _ _ => Some InfluxDBServerError;
     driver_query := fun _ _ => inl InfluxDBServerError;
     driver_list_rp := fun _ _ =>
       inr (map to_dict (retention_policies (database three_rps)));
     driver_list_cq := fun _ _ =>
       inr [ {[ "sppmon" := [("cq_new", "q1"); ("cq_changed", "q2"); ("cq_same", "q3")] ]} ];
     perf_elapsed := fun _ => 1%Q;
     get_actual_time_sec := fun _ _ => 0;
     split_by_table_def := Demo.split;
     py_int := fun _ => None;
     to_query := fun q => table_name (iq_table q) |}.

(** As [reporting_rps], but the server refuses to alter a policy. *)
Definition refusing_alter : World :=
  {| driver_do := fun _ request =>
       match request with
       | alter_retention_policy _ => Some InfluxDBClientError
       | _ => None
       end;
     driver_query := fun _ _ => inr [];
     driver_list_rp := driver_list_rp reporting_rps;
     driver_list_cq := fun _ _ => inr [];
     perf_elapsed := fun _ => 1%Q;
     get_actual_time_sec := fun _ _ => 0;
     split_by_table_def := Demo.split;
     py_int := fun _ => None;
     to_query := fun q => table_name (iq_table q) |}.

(** Every request is accepted; the request number [n] (from 1) takes
    [n] seconds, and the clock shows the number of requests and readings
    made. *)
Definition slowing : World :=
  {| driver_do := fun _ _ => None;
     driver_query := fun _ _ => inr [];
     driver_list_rp := fun _ _ => inr [];
     driver_list_cq := fun _ _ => inr [];
     perf_elapsed := fun history => inject_Z (Z.of_nat (S (length history)));
     get_actual_time_sec := fun history n => Z.of_nat (length history + n);
     split_by_table_def := Demo.split;
     py_int := fun _ => None;
     to_query := fun q => table_name (iq_table q) |}.



(** A query answered with one series of two rows; the clock advances by
    one at every reading. *)
Definition answering : World :=
  {| driver_do := fun _ _ => None;
     driver_query := fun _ _ => inr [[[VInt 1]; [VInt 2]]];
     driver_list_rp := fun _ _ => inr [];
     driver_list_cq := fun _ _ => inr [];
     perf_elapsed := fun _ => 1%Q;
     get_actual_time_sec := fun _ n => Z.of_nat n;
     split_by_table_def := Demo.split;
     py_int := fun _ => None;
     to_query := fun q => table_name (iq_table q) |}.

(** One point per row of the first series, its values under the column
    [value]. *)
Definition tools : QueryTools :=
  {| selection_to_query := fun keyword _ tables _ =>
       match keyword with
       | SELECT => "SELECT"
       | DELETE => "DELETE"
       | INSERT => "INSERT"
       end;
     get_points := fun result =>
       match result with
       | [] => []
       | series :: _ =>
           map (fun values => match values with
                              | [] => []
                              | value :: _ => [("value", value)]
                              end) series
       end |}.

Definition select_ab : SelectionQuery :=
  {| sq_keyword := SELECT; sq_tables := [Demo.table_of "A"; Demo.table_of "B"];
     sq_to_query := "SELECT * FROM A, B" |}.
End Demo2.

(** * Theorems *)

(** ** Dictionaries *)

Section DictFacts.
Context {V : Type}.
Implicit Types (d : list (Table * V)) (k : Table) (v : V).

Lemma dict_get_set_eq k v d : dict_get k (dict_set k v d) = Some v.
Proof.
  induction d as [|[k' v'] d IH]; simpl.
  - by rewrite decide_True.
  - destruct (decide (k = k')) as [->|Hne]; simpl.
    + by rewrite decide_True.
    + by rewrite decide_False.
Qed.

Lemma dict_set_set k v v' d : dict_set k v' (dict_set k v d) = dict_set k v' d.
Proof.
  induction d as [|[k' v''] d IH]; simpl.
  - by rewrite decide_True.
  - destruct (decide (k = k')) as [->|Hne]; simpl.
    + by rewrite decide_True.
    + rewrite decide_False by done. by rewrite IH.
Qed.

Lemma dict_set_fresh k v d : dict_get k d = None -> dict_set k v d = d ++ [(k, v)].
Proof.
  induction d as [|[k' v'] d IH]; simpl; [done|].
  destruct (decide (k = k')); [done|]. intros H. by rewrite IH.
Qed.

Lemma dict_get_In k v d : dict_get k d = Some v -> In (k, v) d.
Proof.
  induction d as [|[k' v'] d IH]; cbn; [done|].
  destruct (decide (k = k')) as [->|]; [intros [= ->]; by left|].
  intros H. right. by apply IH.
Qed.

Lemma dict_mem_true k d : dict_mem k d = true <-> is_Some (dict_get k d).
Proof.
  unfold dict_mem. destruct (dict_get k d).
  - split; eauto.
  - split; [done|]. by intros [? ?].
Qed.
End DictFacts.

(** ** The metrics recorder *)

Section MetricsFacts.
Variable w : World.
Implicit Types (self : InfluxClient) (s : Store).

Lemma Qle_bool_false (x y : Q) : Qle_bool x y = false <-> (y < x)%Q.
Proof.
  split; intros H.
  - apply Qnot_le_lt. intros Hle. apply Qle_bool_iff in Hle. congruence.
  - destruct (Qle_bool x y) eqn:E; [|done].
    apply Qle_bool_iff in E. exfalso. by apply (Qlt_not_le y x).
Qed.

Lemma len_lt_1 {A} (xs : list A) : (len xs <? 1) = false <-> xs <> [].
Proof.
  unfold len. destruct xs; simpl; split; intros H; try done.
  apply Z.ltb_ge. lia.
Qed.

Lemma with_metrics_app self ms1 ms2 buffer :
  with_metrics self ms2 (with_metrics self ms1 buffer)
  = with_metrics self (ms1 ++ ms2) buffer.
Proof.
  destruct ms1 as [|m1 ms1]; [done|].
  destruct ms2 as [|m2 ms2]; [by rewrite app_nil_r|].
  cbn [with_metrics app].
  rewrite dict_get_set_eq, dict_set_set. simpl.
  by rewrite <- app_assoc.
Qed.

(** What a call that returns has done. *)
Lemma insert_metrics_return self keyword tables_count duration_s batch_size s s' :
  __insert_metrics_to_buffer w self keyword tables_count duration_s batch_size s
    = (Return tt, s') ->
  tables_count <> [] /\ (0 < duration_s)%Q /\ 1 <= batch_size /\
  s' = set_buffer
         (with_metrics self
            (querys w self keyword tables_count duration_s batch_size (calls s))
            (__insert_buffer s)) s.
Proof.
  unfold __insert_metrics_to_buffer.
  destruct tables_count as [|item tables_count]; [done|].
  destruct (Qle_bool duration_s 0) eqn:Hd; [done|].
  destruct (batch_size <? 1) eqn:Hb; [done|].
  intros [= <-]. apply Qle_bool_false in Hd. apply Z.ltb_ge in Hb.
  repeat split; try done; lia.
Qed.

(** A call that raises leaves the store as it was. *)
Lemma insert_metrics_raise self keyword tables_count duration_s batch_size s e s' :
  __insert_metrics_to_buffer w self keyword tables_count duration_s batch_size s
    = (Raise e, s') -> s' = s.
Proof.
  unfold __insert_metrics_to_buffer.
  destruct tables_count as [|item tables_count]; [by intros [= _ <-]|].
  destruct (Qle_bool duration_s 0); [by intros [= _ <-]|].
  destruct (batch_size <? 1); [by intros [= _ <-]|done].
Qed.

(** The three argument checks are the only way not to return. *)
Lemma insert_metrics_ok self keyword tables_count duration_s batch_size s :
  tables_count <> [] -> (0 < duration_s)%Q -> 1 <= batch_size ->
  __insert_metrics_to_buffer w self keyword tables_count duration_s batch_size s
  = (Return tt,
     set_buffer
       (with_metrics self
          (querys w self keyword tables_count duration_s batch_size (calls s))
          (__insert_buffer s)) s).
Proof.
  intros Ht Hd Hb. unfold __insert_metrics_to_buffer.
  destruct tables_count as [|item tables_count]; [done|].
  apply Qle_bool_false in Hd. rewrite Hd.
  assert ((batch_size <? 1) = false) as -> by (apply Z.ltb_ge; lia).
  done.
Qed.

(** The record number [n] of a call: built for the item number [n] and
    stamped by the clock reading number [n]. *)
Lemma querys_lookup self keyword tables_count duration_s batch_size history
    (n : nat) table c :
  tables_count !! n = Some (table, c) ->
  querys w self keyword tables_count duration_s batch_size history !! n
  = Some {| iq_table := __metrics_table self;
            iq_fields := [("duration_ms", VFloat (duration_ms duration_s c batch_size));
                          ("item_count", VInt c)];
            iq_tags := [("keyword", VKeyword keyword);
                        ("tableName", VStr (table_name table))];
            iq_time_stamp := get_actual_time_sec w history n |}.
Proof. intros Hn. unfold querys. by rewrite list_lookup_imap, Hn. Qed.

Lemma querys_length self keyword tables_count duration_s batch_size history :
  length (querys w self keyword tables_count duration_s batch_size history)
  = length tables_count.
Proof. apply length_imap. Qed.

(** An empty batch is rejected by the [batch_size] check. *)
Lemma insert_metrics_empty_batch self keyword table duration_s s :
  (0 < duration_s)%Q ->
  __insert_metrics_to_buffer w self keyword [(table, 0)] duration_s 0 s
  = (Raise (ValueError
              "only positive values are supported for batch_size. Must be not 0"), s).
Proof.
  intros Hd. unfold __insert_metrics_to_buffer.
  apply Qle_bool_false in Hd. by rewrite Hd.
Qed.
End MetricsFacts.

(** ** The flush loop *)

Section FlushFacts.
Variable w : World.
Implicit Types (self : InfluxClient) (s : Store).

Lemma flushed_nil self s : flushed w self [] s = s.
Proof. destruct s. unfold flushed. simpl. by rewrite app_nil_r. Qed.

Lemma flushed_cons self table queries_str rest s :
  flushed w self ((table, queries_str) :: rest) s
  = flushed w self rest
      (set_buffer
         (with_metrics self
            [metrics_query self INSERT (perf_elapsed w (calls s)) (len queries_str)
               (get_actual_time_sec w (calls s ++ [write_request self table queries_str]) 0%nat)
               (table, len queries_str)]
            (__insert_buffer s))
         (log_call (write_request self table queries_str) s)).
Proof.
  unfold flushed. cbn [flush_metrics flush_requests map set_buffer log_call
                        __insert_buffer calls fst snd].
  rewrite with_metrics_app. cbn [app]. by rewrite <- app_assoc.
Qed.

(** One step of the loop when the request does not raise a transport
    error: the metrics call follows, whatever the driver answered. *)
Lemma send_insert_list_step self table queries_str rest s :
  driver_do w (calls s) (write_request self table queries_str) <> Some ConnectionError ->
  send_insert_list w self ((table, queries_str) :: rest) s
  = (do _ <- __insert_metrics_to_buffer w self INSERT [(table, len queries_str)]
               (perf_elapsed w (calls s)) (len queries_str);
     send_insert_list w self rest)
      (log_call (write_request self table queries_str) s).
Proof.
  intros H. cbn [send_insert_list].
  destruct (driver_do w (calls s) (write_request self table queries_str))
    as [[| |]|]; done.
Qed.

(** A run that returns has sent every batch and recorded every table. *)
Lemma send_insert_list_return self insert_list s s' :
  send_insert_list w self insert_list s = (Return tt, s') ->
  s' = flushed w self insert_list s.
Proof.
  revert s. induction insert_list as [|[table queries_str] rest IH]; intros s.
  - cbn. intros [= <-]. by rewrite flushed_nil.
  - destruct (decide (driver_do w (calls s) (write_request self table queries_str)
                      = Some ConnectionError)) as [He|Hne].
    + cbn [send_insert_list]. by rewrite He.
    + rewrite send_insert_list_step by done. unfold bind.
      destruct (__insert_metrics_to_buffer _ _ _ _ _ _ _) as [[[]|e] s1] eqn:Hm; [|done].
      apply insert_metrics_return in Hm as (_ & _ & _ & ->).
      intros H. apply IH in H. by rewrite flushed_cons.
Qed.

(** Sufficient for a run to return: no transport error, positive
    durations, no empty batch. *)
Lemma send_insert_list_ok self insert_list s :
  no_connection_error w -> positive_durations w ->
  Forall (fun item => item.2 <> []) insert_list ->
  send_insert_list w self insert_list s = (Return tt, flushed w self insert_list s).
Proof.
  intros Hconn Hpos. revert s.
  induction insert_list as [|[table queries_str] rest IH]; intros s Hne.
  - cbn. by rewrite flushed_nil.
  - apply Forall_cons in Hne as [Hq Hrest]. simpl in Hq.
    rewrite send_insert_list_step by apply Hconn. unfold bind.
    rewrite insert_metrics_ok; [|done|apply Hpos|].
    + rewrite IH by done. by rewrite flushed_cons.
    + unfold len. destruct queries_str; [done|simpl; lia].
Qed.

(** Whatever the outcome, the loop only adds metrics records of this
    run to the buffer, and only sends requests of this run. *)
Lemma send_insert_list_any self insert_list s r s' :
  send_insert_list w self insert_list s = (r, s') ->
  exists k j,
    __insert_buffer s'
    = with_metrics self (take k (flush_metrics w self (calls s) insert_list))
        (__insert_buffer s) /\
    calls s' = calls s ++ take j (flush_requests self insert_list).
Proof.
  revert s. induction insert_list as [|[table queries_str] rest IH]; intros s.
  - cbn. intros [= <- <-]. exists 0%nat, 0%nat. simpl. by rewrite app_nil_r.
  - destruct (decide (driver_do w (calls s) (write_request self table queries_str)
                      = Some ConnectionError)) as [He|Hne].
    + cbn [send_insert_list]. rewrite He. intros [= <- <-].
      by exists 0%nat, 1%nat.
    + rewrite send_insert_list_step by done. unfold bind.
      destruct (__insert_metrics_to_buffer _ _ _ _ _ _ _) as [[[]|e] s1] eqn:Hm.
      * apply insert_metrics_return in Hm as (_ & _ & _ & ->).
        intros H. apply IH in H as (k & j & Hb & Hc).
        exists (S k), (S j). split.
        -- rewrite Hb. cbn [flush_metrics take set_buffer log_call
                             __insert_buffer calls map].
           by rewrite with_metrics_app.
        -- rewrite Hc. cbn [flush_requests map take set_buffer log_call calls fst snd].
           by rewrite <- app_assoc.
      * apply insert_metrics_raise in Hm as ->. intros [= <- <-].
        by exists 0%nat, 1%nat.
Qed.

Lemma send_insert_list_app self il1 il2 s :
  send_insert_list w self (il1 ++ il2) s
  = (do _ <- send_insert_list w self il1; send_insert_list w self il2) s.
Proof.
  revert s. induction il1 as [|[table queries_str] rest IH]; intros s; [done|].
  cbn [app].
  destruct (decide (driver_do w (calls s) (write_request self table queries_str)
                    = Some ConnectionError)) as [He|Hne].
  - unfold bind. cbn [send_insert_list]. by rewrite He.
  - unfold bind at 1. rewrite !send_insert_list_step by done. unfold bind.
    destruct (__insert_metrics_to_buffer _ _ _ _ _ _ _) as [[[]|e] s1]; [|done].
    apply IH.
Qed.
End FlushFacts.

(** ** [flush_insert_buffer] *)

Section Flush.
Variable w : World.
Implicit Types (self : InfluxClient) (s : Store).

Lemma flush_metrics_length self history insert_list :
  length (flush_metrics w self history insert_list) = length insert_list.
Proof.
  revert history.
  induction insert_list as [|[table queries_str] rest IH]; intros history; [done|].
  simpl. by rewrite IH.
Qed.

Lemma snapshot_length buffer : length (snapshot w buffer) = length buffer.
Proof. unfold snapshot. by rewrite length_map. Qed.

Lemma flush_empty self s :
  __insert_buffer s = [] -> flush_insert_buffer w self s = (Return tt, s).
Proof. intros H. unfold flush_insert_buffer. by rewrite H. Qed.

Lemma flush_nonempty self s :
  __insert_buffer s <> [] ->
  flush_insert_buffer w self s
  = send_insert_list w self (snapshot w (__insert_buffer s)) (set_buffer [] s).
Proof. intros H. unfold flush_insert_buffer. by destruct (__insert_buffer s). Qed.

Lemma with_metrics_fresh self metrics :
  metrics <> [] -> with_metrics self metrics [] = [(__metrics_table self, metrics)].
Proof. by destruct metrics. Qed.

Lemma snapshot_app before after :
  snapshot w (before ++ after) = snapshot w before ++ snapshot w after.
Proof. unfold snapshot. by rewrite map_app. Qed.

Lemma snapshot_nonempty buffer :
  Forall (fun item => item.2 <> []) buffer ->
  Forall (fun item => item.2 <> []) (snapshot w buffer).
Proof.
  induction 1 as [|[table queries] buffer Hq _ IH]; [by constructor|].
  cbn. constructor; [|done]. cbn in *. by destruct queries.
Qed.

(** With no transport error, positive durations and no empty batch, a
    flush returns having sent every batch, whether or not the server
    accepted it. *)
Lemma flush_isolates_influx_errors self s :
  no_connection_error w -> positive_durations w ->
  Forall (fun item => item.2 <> []) (__insert_buffer s) ->
  __insert_buffer s <> [] ->
  flush_insert_buffer w self s
  = (Return tt, flushed w self (snapshot w (__insert_buffer s)) (set_buffer [] s)).
Proof.
  intros Hconn Hpos Hall Hne. rewrite flush_nonempty by done.
  apply send_insert_list_ok; auto using snapshot_nonempty.
Qed.

(** The state after [n] flushes in a row, whatever their outcomes. *)
Lemma repeated_flush_unfold self n s :
  repeated_flush w self (S n) s
  = (flush_insert_buffer w self (repeated_flush w self n s)).2.
Proof. done. Qed.

(** A returning flush of a buffer without empty sequence leaves its
    metrics, at least one; a flush of such metrics leaves one record. *)
Lemma flush_leaves_metrics self s :
  no_connection_error w -> positive_durations w ->
  Forall (fun item => item.2 <> []) (__insert_buffer s) ->
  __insert_buffer s <> [] ->
  exists metrics,
    metrics <> [] /\ length metrics = length (__insert_buffer s) /\
    __insert_buffer (flush_insert_buffer w self s).2
    = [(__metrics_table self, metrics)].
Proof.
  intros Hconn Hpos Hall Hne. rewrite flush_isolates_influx_errors by done.
  cbn [snd flushed __insert_buffer set_buffer calls].
  set (metrics := flush_metrics w self (calls s) (snapshot w (__insert_buffer s))).
  assert (length metrics = length (__insert_buffer s)) as Hlen.
  { unfold metrics. by rewrite flush_metrics_length, snapshot_length. }
  assert (metrics <> []) as Hm.
  { intros Hnil. rewrite Hnil in Hlen. by destruct (__insert_buffer s). }
  exists metrics. split; [done|]. split; [done|]. by apply with_metrics_fresh.
Qed.

Lemma repeated_flush_leaves_metrics self s n :
  no_connection_error w -> positive_durations w ->
  Forall (fun item => item.2 <> []) (__insert_buffer s) ->
  __insert_buffer s <> [] ->
  exists metrics,
    metrics <> [] /\
    __insert_buffer (repeated_flush w self (S n) s) = [(__metrics_table self, metrics)].
Proof.
  intros Hconn Hpos Hall Hne. induction n as [|n (metrics & Hm & IH)].
  - destruct (flush_leaves_metrics self s) as (metrics & Hm & _ & Hb); try done.
    by exists metrics.
  - rewrite repeated_flush_unfold.
    destruct (flush_leaves_metrics self (repeated_flush w self (S n) s))
      as (metrics' & Hm' & _ & Hb); try done.
    + rewrite IH. by repeat constructor.
    + by rewrite IH.
    + by exists metrics'.
Qed.

Lemma repeated_flush_leaves_one self s n :
  no_connection_error w -> positive_durations w ->
  Forall (fun item => item.2 <> []) (__insert_buffer s) ->
  __insert_buffer s <> [] ->
  exists record,
    __insert_buffer (repeated_flush w self (S (S n)) s)
    = [(__metrics_table self, [record])].
Proof.
  intros Hconn Hpos Hall Hne.
  destruct (repeated_flush_leaves_metrics self s n) as (metrics & Hm & Hb); try done.
  rewrite repeated_flush_unfold.
  destruct (flush_leaves_metrics self (repeated_flush w self (S n) s))
    as (metrics' & _ & Hlen & Hb'); try done.
  - rewrite Hb. by repeat constructor.
  - by rewrite Hb.
  - rewrite Hb in Hlen. destruct metrics' as [|record [|]]; try done.
    by exists record.
Qed.

Lemma flush_metrics_built self history insert_list :
  Forall (is_metrics_record self) (flush_metrics w self history insert_list).
Proof.
  revert history.
  induction insert_list as [|[table queries_str] rest IH]; intros history; cbn.
  - constructor.
  - constructor; [|apply IH]. by eexists _, _, _, _, _.
Qed.

(** Whatever its outcome, a flush leaves nothing but metrics records of
    its own, at most one per table it was given. *)
Lemma flush_bound self s :
  exists metrics,
    __insert_buffer (flush_insert_buffer w self s).2 = with_metrics self metrics [] /\
    Forall (is_metrics_record self) metrics /\
    (length metrics <= length (__insert_buffer s))%nat.
Proof.
  destruct (decide (__insert_buffer s = [])) as [He|Hne].
  - rewrite flush_empty by done. exists []. rewrite He. by split.
  - destruct (flush_insert_buffer w self s) as [r s'] eqn:Hf.
    rewrite flush_nonempty in Hf by done.
    apply send_insert_list_any in Hf as (k & _ & Hb & _).
    eexists. split; [exact Hb|]. split; [apply Forall_take, flush_metrics_built|].
    rewrite length_take, flush_metrics_length, snapshot_length.
    cbn [set_buffer calls]. lia.
Qed.

Lemma with_metrics_keys self metrics :
  (length (with_metrics self metrics []) <= 1)%nat.
Proof. destruct metrics; cbn; lia. Qed.

(** So two flushes in a row leave at most one record, and so does every
    flush after them. *)
Lemma repeated_flush_bound self s n :
  exists metrics,
    __insert_buffer (repeated_flush w self (S (S n)) s) = with_metrics self metrics [] /\
    Forall (is_metrics_record self) metrics /\
    (length metrics <= 1)%nat.
Proof.
  rewrite repeated_flush_unfold.
  destruct (flush_bound self (repeated_flush w self (S n) s))
    as (metrics & Hb & Hbuilt & Hlen).
  exists metrics. split; [done|]. split; [done|].
  rewrite repeated_flush_unfold in Hlen.
  destruct (flush_bound self (repeated_flush w self n s)) as (metrics0 & Hb0 & _).
  rewrite Hb0 in Hlen. pose proof (with_metrics_keys self metrics0). lia.
Qed.
End Flush.

(** C1, as the code has it.  [flush_insert_buffer] snapshots and clears
    the buffer before its first request: whatever its outcome, a flush of
    a non-empty buffer leaves in the buffer nothing but metrics records
    built by this flush, and when it returns the buffer holds exactly
    those records, one per flushed table, under the metrics table, the
    requests sent being the batches of the snapshot.  A flush of an
    empty buffer returns with the store unchanged (no request, no
    metrics), so any number of flushes of an empty buffer ends with an
    empty buffer.  Flushes of a non-empty buffer need not: with a driver
    that raises no transport error, positive measured durations and no
    empty sequence buffered, the buffer holds exactly one metrics record
    after two or more flushes in a row.  Without these conditions it
    holds at most one: the buffer does not grow across repeated
    flushes. *)
Theorem flush_snapshot_then_clear (w : World) (self : InfluxClient) (s : Store) :
  (__insert_buffer s <> [] ->
   let insert_list := snapshot w (__insert_buffer s) in
   let metrics := flush_metrics w self (calls s) insert_list in
   (forall r s', flush_insert_buffer w self s = (r, s') ->
      exists k, __insert_buffer s' = with_metrics self (take k metrics) []) /\
   (forall s', flush_insert_buffer w self s = (Return tt, s') ->
      __insert_buffer s' = [(__metrics_table self, metrics)] /\
      length metrics = length (__insert_buffer s) /\
      calls s' = calls s ++ flush_requests self insert_list)) /\
  (__insert_buffer s = [] ->
   flush_insert_buffer w self s = (Return tt, s) /\
   forall n, repeated_flush w self n s = s) /\
  (__insert_buffer s <> [] ->
   no_connection_error w -> positive_durations w ->
   Forall (fun item => item.2 <> []) (__insert_buffer s) ->
   forall n, exists record,
     __insert_buffer (repeated_flush w self (S (S n)) s)
     = [(__metrics_table self, [record])]) /\
  (forall n, exists metrics,
     __insert_buffer (repeated_flush w self (S (S n)) s)
     = with_metrics self metrics [] /\
     Forall (is_metrics_record self) metrics /\
     (length metrics <= 1)%nat).
Proof.
  split; [|split; [|split; [|intros n; apply repeated_flush_bound]]].
  - intros Hne insert_list metrics. split.
    + intros r s' H. rewrite flush_nonempty in H by done.
      apply send_insert_list_any in H as (k & _ & Hb & _). by exists k.
    + intros s' H. rewrite flush_nonempty in H by done.
      apply send_insert_list_return in H as ->.
      assert (length metrics = length (__insert_buffer s)) as Hlen.
      { unfold metrics, insert_list.
        by rewrite flush_metrics_length, snapshot_length. }
      repeat split; try done.
      cbn [flushed __insert_buffer set_buffer calls].
      apply with_metrics_fresh. intros Hnil. fold insert_list in Hnil.
      fold metrics in Hnil. rewrite Hnil in Hlen.
      destruct (__insert_buffer s); done.
  - intros Hempty. split; [by apply flush_empty|].
    induction n as [|n IH]; [done|].
    rewrite repeated_flush_unfold, IH. by rewrite flush_empty.
  - intros Hne Hconn Hpos Hall n. by apply repeated_flush_leaves_one.
Qed.

Lemma flush_snapshot_then_clear_witness :
  let s' := (flush_insert_buffer Demo.calm Demo.client Demo.two_tables).2 in
  __insert_buffer s'
  = [(__metrics_table Demo.client,
      flush_metrics Demo.calm Demo.client []
        (snapshot Demo.calm (__insert_buffer Demo.two_tables)))] /\
  calls s' = [write_request Demo.client (Demo.table_of "A") ["A"];
              write_request Demo.client (Demo.table_of "B") ["B"]] /\
  flush_insert_buffer Demo.calm Demo.client Demo.fresh = (Return tt, Demo.fresh) /\
  exists record,
    __insert_buffer (repeated_flush Demo.calm Demo.client 2 Demo.two_tables)
    = [(__metrics_table Demo.client, [record])].
Proof.
  destruct (flush_snapshot_then_clear Demo.calm Demo.client Demo.two_tables)
    as (Hfull & _ & Hrepeat & _).
  destruct (flush_snapshot_then_clear Demo.calm Demo.client Demo.fresh)
    as (_ & Hempty & _).
  destruct (Hfull ltac:(done)) as [_ Hret].
  destruct (Hret _ eq_refl) as (Hb & _ & Hc).
  destruct (Hempty eq_refl) as [He _].
  repeat split; try assumption.
  apply (Hrepeat ltac:(done)).
  - by intros history request.
  - by intros history.
  - by repeat constructor.
Defined.

(** C1 as stated fails for its last clause when the buffer was not
    empty: starting from two tables with one record each, every flush
    returns, yet after one, two and three flushes with nothing ingested
    in between the buffer still holds 2, 1 and 1 records. *)
Lemma repeated_flushes_keep_a_record :
  let records s := map (fun item => length item.2) (__insert_buffer s) in
  (flush_insert_buffer Demo.calm Demo.client Demo.two_tables).1 = Return tt /\
  (flush_insert_buffer Demo.calm Demo.client
     (repeated_flush Demo.calm Demo.client 1 Demo.two_tables)).1 = Return tt /\
  (flush_insert_buffer Demo.calm Demo.client
     (repeated_flush Demo.calm Demo.client 2 Demo.two_tables)).1 = Return tt /\
  records (repeated_flush Demo.calm Demo.client 1 Demo.two_tables) = [2%nat] /\
  records (repeated_flush Demo.calm Demo.client 2 Demo.two_tables) = [1%nat] /\
  records (repeated_flush Demo.calm Demo.client 3 Demo.two_tables) = [1%nat].
Proof. repeat split; reflexivity. Qed.

(** ** [insert_dicts_to_buffer] *)

Section Ingest.
Variable w : World.
Implicit Types (self : InfluxClient) (s : Store).

(** After the append the table's sequence is the old one followed by
    the rows that classified. *)
Lemma appended_lookup self table_name rows s :
  let table := db_getitem (database self) table_name in
  dict_get table (__insert_buffer (appended w self table_name rows s))
  = Some (default [] (dict_get table (__insert_buffer s))
            ++ omap (make_insert_query w table) rows).
Proof. unfold appended. cbn [set_buffer __insert_buffer]. apply dict_get_set_eq. Qed.

Lemma appended_calls self table_name rows s :
  calls (appended w self table_name rows s) = calls s.
Proof. done. Qed.

(** The method, for arguments that pass its checks. *)
Lemma insert_dicts_unfold self table_name rows s :
  table_name <> "" -> rows <> [] ->
  insert_dicts_to_buffer w self table_name (Some rows) s
  = if pending (db_getitem (database self) table_name)
         (appended w self table_name rows s) >? 5 * __query_max_batch_size
    then flush_insert_buffer w self (appended w self table_name rows s)
    else (Return tt, appended w self table_name rows s).
Proof.
  intros Hname Hrows. unfold insert_dicts_to_buffer.
  rewrite decide_False by done. by destruct rows.
Qed.
End Ingest.

(** C3, as the code has it.  For a non-empty table name and a non-empty
    row list: while the table's pending count after the append is at
    most 5 x 10000 the ingestion returns with the appended buffer and
    sends nothing; when the count is greater than 5 x 10000 its outcome
    is that of one [flush_insert_buffer] run on the whole appended
    buffer. *)
Theorem insert_dicts_flush_threshold (w : World) (self : InfluxClient)
    (table_name : string) (rows : list Row) (s : Store) :
  table_name <> "" -> rows <> [] ->
  let table := db_getitem (database self) table_name in
  let s1 := appended w self table_name rows s in
  (pending table s1 <= 5 * 10000 ->
   insert_dicts_to_buffer w self table_name (Some rows) s = (Return tt, s1) /\
   calls s1 = calls s) /\
  (5 * 10000 < pending table s1 ->
   insert_dicts_to_buffer w self table_name (Some rows) s
   = flush_insert_buffer w self s1).
Proof.
  intros Hname Hrows table s1.
  rewrite insert_dicts_unfold by done. fold table. fold s1.
  change (5 * __query_max_batch_size) with (5 * 10000).
  split; intros H.
  - destruct (pending table s1 >? 5 * 10000) eqn:E; [|done].
    apply Z.gtb_lt in E. lia.
  - destruct (pending table s1 >? 5 * 10000) eqn:E; [done|].
    rewrite Z.gtb_ltb in E. apply Z.ltb_ge in E. lia.
Qed.

Lemma insert_dicts_flush_threshold_witness :
  insert_dicts_to_buffer Demo.calm Demo.client "A" (Some [Demo.row]) Demo.fresh
  = (Return tt,
     {| __insert_buffer := [(Demo.table_of "A", [Demo.record "A"])]; calls := [] |}).
Proof.
  destruct (insert_dicts_flush_threshold Demo.calm Demo.client "A" [Demo.row] Demo.fresh)
    as [Hbelow _]; [done|done|].
  destruct Hbelow as [H _]; [vm_compute; discriminate|exact H].
Defined.

Section AtThreshold.
Lemma demo_rows_classify n :
  omap (make_insert_query Demo.calm Demo.table_a) (repeat Demo.row n)
  = repeat (Demo.record "A") n.
Proof. induction n as [|n IH]; [done|]. simpl. f_equal. exact IH. Qed.

Lemma demo_pending n :
  pending Demo.table_a (appended Demo.calm Demo.client "A" (repeat Demo.row n) Demo.fresh)
  = Z.of_nat n.
Proof.
  unfold pending.
  change Demo.table_a with (db_getitem (database Demo.client) "A") at 1.
  rewrite appended_lookup. cbn [db_getitem database Demo.client Demo.db].
  fold Demo.table_a. rewrite demo_rows_classify.
  cbn [Demo.fresh __insert_buffer dict_get default from_option id app].
  unfold len. by rewrite repeat_length.
Qed.

(** With [n] rows that all classify, the buffer of a fresh store
    holds [n] records for table A; at [n = 50000] the ingestion
    returns without a request, and a flush of that buffer sends one. *)
Lemma demo_at_threshold n :
  Z.of_nat n = 50000 ->
  let rows := repeat Demo.row n in
  let s1 := appended Demo.calm Demo.client "A" rows Demo.fresh in
  let result := insert_dicts_to_buffer Demo.calm Demo.client "A" (Some rows) Demo.fresh in
  5 * __query_max_batch_size <= pending Demo.table_a s1 /\
  calls result.2 = [] /\
  pending Demo.table_a result.2 = 50000 /\
  calls (flush_insert_buffer Demo.calm Demo.client s1).2 <> [].
Proof.
  intros Hn rows s1 result.
  assert (rows <> []) as Hrows.
  { unfold rows. destruct n; [done|]. simpl. discriminate. }
  assert (pending Demo.table_a s1 = 50000) as Hp.
  { unfold s1, rows. by rewrite demo_pending. }
  assert (result = (Return tt, s1)) as ->.
  { unfold result. rewrite insert_dicts_unfold by done.
    change (db_getitem (database Demo.client) "A") with Demo.table_a.
    fold rows. fold s1. rewrite Hp. done. }
  repeat split; try done.
  - rewrite Hp. done.
  - assert (exists b, __insert_buffer s1 = [(Demo.table_a, b)] /\ b <> []) as (b & Hb & Hne).
    { exists (repeat (Demo.record "A") n). split.
      - unfold s1, appended.
        cbn [db_getitem database Demo.client Demo.db Demo.fresh __insert_buffer
             set_buffer dict_get dict_set default from_option id app].
        fold Demo.table_a. fold rows. unfold rows. by rewrite demo_rows_classify.
      - destruct n; [done|]. simpl. discriminate. }
    rewrite flush_nonempty by (rewrite Hb; discriminate).
    rewrite send_insert_list_ok.
    + rewrite Hb. cbn [flushed calls snd snapshot map flush_requests].
      intros H. by apply app_eq_nil in H as [_ H].
    + by intros history request.
    + by intros history.
    + rewrite Hb. cbn [snapshot map]. apply Forall_cons. split; [|done].
      cbn [snd]. by destruct b.
Qed.
End AtThreshold.

(** C3 as stated fails at the threshold itself: with exactly 5 x 10000
    records pending after the append, the ingestion sends nothing and
    keeps all of them buffered, whereas a flush of the appended buffer
    sends a request. *)
Lemma insert_dicts_no_flush_at_threshold :
  let rows := repeat Demo.row (Z.to_nat 50000) in
  let s1 := appended Demo.calm Demo.client "A" rows Demo.fresh in
  let result := insert_dicts_to_buffer Demo.calm Demo.client "A" (Some rows) Demo.fresh in
  5 * __query_max_batch_size <= pending (Demo.table_of "A") s1 /\
  calls result.2 = [] /\
  pending (Demo.table_of "A") result.2 = 50000 /\
  calls (flush_insert_buffer Demo.calm Demo.client s1).2 <> [].
Proof. apply demo_at_threshold. apply Z2Nat.id. lia. Qed.

(** ** [send_selection_query] *)

Section Selection.
Variable w : World.
Implicit Types (self : InfluxClient) (s : Store) (q : SelectionQuery).

Lemma insert_metrics_calls self keyword tables_count duration_s batch_size s :
  calls (__insert_metrics_to_buffer w self keyword tables_count duration_s batch_size s).2
  = calls s.
Proof.
  destruct (__insert_metrics_to_buffer _ _ _ _ _ _ _) as [[[]|e] s1] eqn:Hm.
  - by apply insert_metrics_return in Hm as (_ & _ & _ & ->).
  - by apply insert_metrics_raise in Hm as ->.
Qed.

(** [send_query] sends exactly its one request, whatever the outcome. *)
Lemma send_query_calls self q s :
  calls (send_query w self q s).2 = calls s ++ [query_request self q].
Proof.
  unfold send_query. fold (query_request self q).
  destruct (driver_query w (calls s) (query_request self q)) as [[| |]|result];
    try done; unfold bind, ret;
    match goal with
    | |- context [__insert_metrics_to_buffer ?a ?b ?c ?d ?e ?f ?g] =>
        pose proof (insert_metrics_calls b c d e f g) as Hc;
        destruct (__insert_metrics_to_buffer a b c d e f g) as [[[]|?] ?]
    end; exact Hc.
Qed.

Lemma buffered_table_iff q s :
  existsb (fun table => dict_mem table (__insert_buffer s)) (sq_tables q) = true
  <-> exists table, In table (sq_tables q) /\ is_Some (dict_get table (__insert_buffer s)).
Proof.
  rewrite existsb_exists. split; intros (table & Hin & H); exists table;
    (split; [done|]); by apply dict_mem_true.
Qed.

(** In a buffer without empty sequence, the keys are the tables with
    pending records. *)
Lemma buffered_iff_pending table s :
  Forall (fun item => item.2 <> []) (__insert_buffer s) ->
  is_Some (dict_get table (__insert_buffer s)) <-> 0 < pending table s.
Proof.
  intros Hall. unfold pending, len. split.
  - intros [records Hget]. rewrite Hget. cbn.
    apply dict_get_In, list_elem_of_In in Hget.
    apply (proj1 (Forall_forall _ _) Hall) in Hget. cbn in Hget.
    destruct records; [done|cbn; lia].
  - destruct (dict_get table (__insert_buffer s)); [by eexists|cbn; lia].
Qed.

(** With no queried table in the buffer the check does nothing. *)
Lemma send_selection_query_unbuffered self q s :
  (forall table, In table (sq_tables q) -> dict_get table (__insert_buffer s) = None) ->
  send_selection_query w self q s = send_query w self q s.
Proof.
  intros Hnone. unfold send_selection_query.
  destruct (existsb _ _) eqn:E; [|done].
  apply buffered_table_iff in E as (table & Hin & [v Hv]).
  rewrite Hnone in Hv by done. done.
Qed.
End Selection.

(** C4, as the code has it.  The flush depends on the keys of the insert
    buffer, not on the pending counts.  When a table of the query is a
    key of the buffer, [send_selection_query] first runs
    [flush_insert_buffer] on the whole buffer and only then sends the
    query: if the flush raises, the query is not sent, and when the call
    returns, the requests it made are the batches of every buffered
    table followed by the query.  When no table of the query is a key of
    the buffer, the query is the only request made.  In a buffer without
    empty sequence the keys are the tables with pending records. *)
Theorem selection_query_flushes_first (w : World) (self : InfluxClient)
    (q : SelectionQuery) (s : Store) :
  ((exists table, In table (sq_tables q) /\
                  is_Some (dict_get table (__insert_buffer s))) ->
   send_selection_query w self q s
   = (do _ <- flush_insert_buffer w self; send_query w self q) s /\
   (forall e s1, flush_insert_buffer w self s = (Raise e, s1) ->
      send_selection_query w self q s = (Raise e, s1)) /\
   (forall result s', send_selection_query w self q s = (Return result, s') ->
      calls s' = calls s ++ flush_requests self (snapshot w (__insert_buffer s))
                   ++ [query_request self q])) /\
  ((forall table, In table (sq_tables q) ->
                  dict_get table (__insert_buffer s) = None) ->
   send_selection_query w self q s = send_query w self q s /\
   calls (send_selection_query w self q s).2 = calls s ++ [query_request self q]) /\
  (Forall (fun item => item.2 <> []) (__insert_buffer s) ->
   forall table,
     is_Some (dict_get table (__insert_buffer s)) <-> 0 < pending table s).
Proof.
  split; [|split; [|intros Hall table; by apply buffered_iff_pending]].
  - intros Hbuf.
    assert (__insert_buffer s <> []) as Hne.
    { destruct Hbuf as (table & _ & [v Hv]). by destruct (__insert_buffer s). }
    apply buffered_table_iff in Hbuf.
    assert (send_selection_query w self q s
            = (do _ <- flush_insert_buffer w self; send_query w self q) s) as Heq.
    { unfold send_selection_query. by rewrite Hbuf. }
    split; [done|]. rewrite Heq. unfold bind. split.
    + intros e s1 ->. done.
    + intros result s'.
      destruct (flush_insert_buffer w self s) as [[[]|e] s1] eqn:Hf; [|done].
      rewrite flush_nonempty in Hf by done.
      apply send_insert_list_return in Hf as ->.
      intros H. pose proof (send_query_calls w self q
        (flushed w self (snapshot w (__insert_buffer s)) (set_buffer [] s))) as Hc.
      rewrite H in Hc. cbn [snd] in Hc. rewrite Hc.
      cbn [flushed calls set_buffer]. by rewrite <- app_assoc.
  - intros Hnone. rewrite send_selection_query_unbuffered by done.
    split; [done|]. apply send_query_calls.
Qed.

Lemma selection_query_flushes_first_witness :
  calls (send_selection_query Demo.calm Demo.client Demo.select_a Demo.two_tables).2
  = [write_request Demo.client (Demo.table_of "A") ["A"];
     write_request Demo.client (Demo.table_of "B") ["B"];
     query_request Demo.client Demo.select_a] /\
  calls (send_selection_query Demo.calm Demo.client Demo.select_a Demo.fresh).2
  = [query_request Demo.client Demo.select_a].
Proof.
  destruct (selection_query_flushes_first Demo.calm Demo.client Demo.select_a
              Demo.two_tables) as (Hpending & _ & _).
  destruct (selection_query_flushes_first Demo.calm Demo.client Demo.select_a
              Demo.fresh) as (_ & Hnone & _).
  split.
  - destruct Hpending as (_ & _ & Hcalls).
    + exists (Demo.table_of "A"). split; [by left|by eexists].
    + exact (Hcalls _ _ eq_refl).
  - destruct Hnone as [_ Hcalls]; [done|exact Hcalls].
Defined.

(** C4 as stated fails for a table mapped to an empty sequence.  After
    an ingestion for A whose only row fails classification, A is a key
    of the buffer with no pending entry.  A selection on A nevertheless
    runs the flush, which sends A's empty batch and raises: a flush
    occurred although no target table had a pending entry, and the query
    is never sent. *)
Lemma selection_query_flushes_without_pending :
  let s := (insert_dicts_to_buffer Demo.calm Demo.client "A" (Some [[]]) Demo.fresh).2 in
  s = {| __insert_buffer := [(Demo.table_of "A", [])]; calls := [] |} /\
  sq_tables Demo.select_a = [Demo.table_of "A"] /\
  pending (Demo.table_of "A") s = 0 /\
  send_selection_query Demo.calm Demo.client Demo.select_a s
  = (Raise (ValueError
              "only positive values are supported for batch_size. Must be not 0"),
     {| __insert_buffer := [];
        calls := [write_request Demo.client (Demo.table_of "A") []] |}).
Proof. repeat split; reflexivity. Qed.

(** ** [check_create_rp] *)

Section RetentionPolicies.
Variable w : World.
Implicit Types (self : InfluxClient) (s : Store).

Lemma count_default_cons rp rps :
  count_default (rp :: rps)
  = ((if rp_default rp then 1 else 0) + count_default rps)%nat.
Proof.
  unfold count_default. rewrite filter_cons.
  destruct (rp_default rp); by rewrite ?decide_True, ?decide_False by done.
Qed.

(** The scan raises as soon as it meets a second default policy. *)
Lemma scan_second_default rp_dict rps add_rp_list alter_rp_list (default_used : bool) :
  (2 <= (if default_used then 1 else 0) + count_default rps)%nat ->
  scan_retention_policies rp_dict rps add_rp_list alter_rp_list default_used
  = Raise (ValueError "multiple Retention Policies are declared as default").
Proof.
  revert add_rp_list alter_rp_list default_used.
  induction rps as [|rp rps IH]; intros add_rp_list alter_rp_list default_used H.
  - destruct default_used; cbn in H; lia.
  - rewrite count_default_cons in H. cbn [scan_retention_policies].
    destruct (rp_default rp) eqn:Hd, default_used; cbn [andb orb]; try done;
      destruct (rp_dict !! rp_name rp) as [result_rp|];
      try destruct (decide (result_rp = to_dict rp));
      apply IH; cbn in *; lia.
Qed.
End RetentionPolicies.

(** C5, as the code has it.  When the catalog declares two or more
    default retention policies, [check_create_rp] raises its fatal
    [ValueError] after one server call, the listing of the server's
    policies, and before any policy is created or altered. *)
Theorem check_create_rp_rejects_two_defaults (w : World) (self : InfluxClient)
    (s : Store) :
  (2 <= count_default (retention_policies (database self)))%nat ->
  check_create_rp w self s
  = (Raise (ValueError "Retention Policies check failed"),
     log_call (get_list_retention_policies (db_name (database self))) s).
Proof.
  intros H. unfold check_create_rp, check_create_rp_body.
  destruct (driver_list_rp w (calls s) _) as [e|results]; [done|].
  by rewrite scan_second_default.
Qed.

Lemma check_create_rp_rejects_two_defaults_witness :
  check_create_rp Demo.calm Demo.two_defaults Demo.fresh
  = (Raise (ValueError "Retention Policies check failed"),
     {| __insert_buffer := []; calls := [get_list_retention_policies "sppmon"] |}).
Proof.
  apply (check_create_rp_rejects_two_defaults Demo.calm Demo.two_defaults Demo.fresh).
  vm_compute. lia.
Defined.

(** C5 as stated fails: with two default policies declared, the server
    has already been asked for its policies when the error is raised. *)
Lemma check_create_rp_calls_server_first :
  exists msg s',
    check_create_rp Demo.calm Demo.two_defaults Demo.fresh = (Raise (ValueError msg), s') /\
    count_default (retention_policies (database Demo.two_defaults)) = 2%nat /\
    calls Demo.fresh = [] /\
    calls s' = [get_list_retention_policies "sppmon"].
Proof. by eexists _, _. Qed.

(** ** [__insert_metrics_to_buffer]: the apportioned duration *)

Section Apportion.
Implicit Types (D : Q) (B c : Z) (tables_count : list (Table * Z)).

Lemma inject_Z_nonzero B : 1 <= B -> ~ (inject_Z B == 0)%Q.
Proof. intros H. unfold Qeq. simpl. lia. Qed.

Lemma duration_ms_counted D c B :
  1 <= c -> (duration_ms D c B == D * 1000 * (inject_Z c / inject_Z B))%Q.
Proof. intros H. unfold duration_ms. by rewrite Z.max_l by lia. Qed.

(** [n/n] is [1] and [x*1] is [x], in binary64 as in the rationals. *)
Lemma duration_ms_whole D (n : Z) :
  1 <= n -> (duration_ms D n n == D * 1000)%Q.
Proof.
  intros Hn. rewrite duration_ms_counted by done. field. by apply inject_Z_nonzero.
Qed.

(** [m/1] is [m]. *)
Lemma duration_ms_unit_batch D c :
  (duration_ms D c 1 == D * 1000 * inject_Z (Z.max c 1))%Q.
Proof. unfold duration_ms. field. Qed.

Lemma duration_ms_unit_batch_ge D c :
  (0 < D)%Q -> (D * 1000 <= duration_ms D c 1)%Q.
Proof.
  intros HD. rewrite duration_ms_unit_batch.
  rewrite <- (Qmult_1_r (D * 1000)) at 1.
  apply Qmult_le_l.
  - apply Qmult_lt_0_compat; [done|reflexivity].
  - change 1%Q with (inject_Z 1). rewrite <- Zle_Qle. lia.
Qed.

Lemma total_duration_ms_nonneg D tables_count :
  (0 < D)%Q -> (0 <= total_duration_ms D 1 tables_count)%Q.
Proof.
  intros HD. induction tables_count as [|[table c] tables_count IH].
  - apply Qle_refl.
  - cbn [total_duration_ms foldr snd]. fold (total_duration_ms D 1 tables_count).
    apply Qle_trans with (D * 1000 + 0)%Q.
    + rewrite Qplus_0_r. apply Qlt_le_weak.
      apply Qmult_lt_0_compat; [done|reflexivity].
    + apply Qplus_le_compat; [by apply duration_ms_unit_batch_ge|done].
Qed.

(** With batch size 1 every table is recorded with at least the whole
    measured duration, so two tables or more with more than it. *)
Lemma total_duration_ms_unit_batch D tables_count :
  (0 < D)%Q -> (2 <= length tables_count)%nat ->
  (D * 1000 < total_duration_ms D 1 tables_count)%Q.
Proof.
  intros HD Hlen.
  assert (0 < D * 1000)%Q as Hpos by (apply Qmult_lt_0_compat; [done|reflexivity]).
  destruct tables_count as [|[t1 c1] [|[t2 c2] tables_count]]; [simpl in Hlen; lia..|].
  cbn [total_duration_ms foldr snd]. fold (total_duration_ms D 1 tables_count).
  apply Qlt_le_trans with (D * 1000 + (D * 1000 + 0))%Q.
  - rewrite Qplus_0_r. rewrite <- (Qplus_0_r (D * 1000)) at 1.
    by apply Qplus_lt_r.
  - apply Qplus_le_compat; [by apply duration_ms_unit_batch_ge|].
    apply Qplus_le_compat; [by apply duration_ms_unit_batch_ge|].
    by apply total_duration_ms_nonneg.
Qed.
End Apportion.

(** C6, as the code has it.  A call of the metrics recorder that returns
    has appended one record per item of [tables_count], the record
    number [n] stamped by the clock reading number [n] of the call; the
    record for a table with item count [c] has
    [duration_ms = D*1000*(max(c,1)/B)], which is [D*1000*(c/B)] for
    every [c >= 1], and a table with no item is recorded as a table
    with one.  A record with [c = B] carries the whole measured
    duration [D*1000]; with [B = 1] a record carries
    [D*1000*max(c,1)], so the durations recorded for two or more tables
    add up to more than the measured duration.  The equations on
    durations rest on [max(c,1) = c], [n/n = 1], [x*1 = x] and [m/1 = m]
    only, which binary64 arithmetic satisfies as the rationals do. *)
Theorem duration_ms_apportioned (w : World) (self : InfluxClient)
    (keyword : Keyword) (tables_count : list (Table * Z)) (D : Q) (B : Z)
    (s s' : Store) :
  __insert_metrics_to_buffer w self keyword tables_count D B s = (Return tt, s') ->
  let records := querys w self keyword tables_count D B (calls s) in
  dict_get (__metrics_table self) (__insert_buffer s')
  = Some (default [] (dict_get (__metrics_table self) (__insert_buffer s))
            ++ records) /\
  length records = length tables_count /\
  (forall (n : nat) table c,
     tables_count !! n = Some (table, c) ->
     records !! n
     = Some {| iq_table := __metrics_table self;
               iq_fields :=
                 [("duration_ms",
                   VFloat (D * 1000 * (inject_Z (Z.max c 1) / inject_Z B))%Q);
                  ("item_count", VInt c)];
               iq_tags := [("keyword", VKeyword keyword);
                           ("tableName", VStr (table_name table))];
               iq_time_stamp := get_actual_time_sec w (calls s) n |}) /\
  (forall c, 1 <= c ->
     (duration_ms D c B == D * 1000 * (inject_Z c / inject_Z B))%Q) /\
  duration_ms D 0 B = duration_ms D 1 B /\
  (duration_ms D B B == D * 1000)%Q /\
  (forall c, (duration_ms D c 1 == D * 1000 * inject_Z (Z.max c 1))%Q) /\
  (B = 1 -> (2 <= length tables_count)%nat ->
   (D * 1000 < total_duration_ms D B tables_count)%Q).
Proof.
  intros H records. apply insert_metrics_return in H as (Hne & HD & HB & ->).
  split; [|split; [|split; [|split; [|split; [done|split; [|split]]]]]].
  - cbn [set_buffer __insert_buffer]. subst records.
    destruct tables_count as [|item tables_count]; [done|].
    unfold querys. cbn [with_metrics imap]. apply dict_get_set_eq.
  - subst records. unfold querys. apply length_imap.
  - intros n table c Hn. subst records. unfold querys.
    rewrite list_lookup_imap, Hn. reflexivity.
  - intros c Hc. by apply duration_ms_counted.
  - by apply duration_ms_whole.
  - intros c. apply duration_ms_unit_batch.
  - intros -> Hlen. by apply total_duration_ms_unit_batch.
Qed.

Lemma duration_ms_apportioned_witness :
  let tables_count := [(Demo.table_of "A", 7); (Demo.table_of "B", 3)] in
  let selected := [(Demo.table_of "A", 1); (Demo.table_of "B", 1)] in
  let s' := (__insert_metrics_to_buffer Demo.ticking Demo.client INSERT
               tables_count 1 10 Demo.fresh).2 in
  exists d_a d_b,
    __insert_buffer s'
    = [(__metrics_table Demo.client,
        [{| iq_table := __metrics_table Demo.client;
            iq_fields := [("duration_ms", VFloat d_a); ("item_count", VInt 7)];
            iq_tags := [("keyword", VKeyword INSERT); ("tableName", VStr "A")];
            iq_time_stamp := 0 |};
         {| iq_table := __metrics_table Demo.client;
            iq_fields := [("duration_ms", VFloat d_b); ("item_count", VInt 3)];
            iq_tags := [("keyword", VKeyword INSERT); ("tableName", VStr "B")];
            iq_time_stamp := 1 |}])] /\
    (d_a == 700)%Q /\ (d_b == 300)%Q /\
    (duration_ms 1 7 10 == 1 * 1000 * (inject_Z 7 / inject_Z 10))%Q /\
    (1 * 1000 < total_duration_ms 1 1 selected)%Q.
Proof.
  intros tables_count selected s'.
  destruct (duration_ms_apportioned Demo.ticking Demo.client INSERT tables_count 1 10
              Demo.fresh s' eq_refl) as (_ & _ & _ & Hc & _).
  destruct (duration_ms_apportioned Demo.ticking Demo.client SELECT selected 1 1
              Demo.fresh _ eq_refl) as (_ & _ & _ & _ & _ & _ & _ & Hsum).
  eexists _, _. split; [reflexivity|]. split; [reflexivity|]. split; [reflexivity|].
  split; [apply Hc; lia|]. apply Hsum; [reflexivity|cbn; lia].
Defined.

(** C6 as stated fails for [c = 0]: a selection that returns no row,
    measured at one second with the default batch size 1, records
    [duration_ms = 1000], not [1 * 1000 * (0 / 1) = 0]. *)
Lemma duration_ms_zero_items :
  exists d time_stamp tags,
    __insert_buffer
      (send_selection_query Demo.calm Demo.client Demo.select_a Demo.fresh).2
    = [(__metrics_table Demo.client,
        [{| iq_table := __metrics_table Demo.client;
            iq_fields := [("duration_ms", VFloat d); ("item_count", VInt 0)];
            iq_tags := tags; iq_time_stamp := time_stamp |}])] /\
    (d == 1000)%Q /\
    ~ (d == 1 * 1000 * (inject_Z 0 / inject_Z 1))%Q.
Proof.
  eexists _, _, _. split; [reflexivity|]. split; [reflexivity|].
  intros H. vm_compute in H. discriminate.
Qed.

(** ** [check_create_cq] *)

Section ContinuousQueries.
Variable w : World.
Implicit Types (self : InfluxClient) (s : Store).

(** A driver loop that meets no error sends one request per element. *)
Lemma driver_each_ok {X : Type} (request_of : X -> DriverCall) (xs : list X) s :
  driver_accepts w ->
  driver_each w request_of xs s
  = (Return tt, {| __insert_buffer := __insert_buffer s;
                   calls := calls s ++ map request_of xs |}).
Proof.
  intros Hok. revert s. induction xs as [|x xs IH]; intros s.
  - destruct s. cbn. by rewrite app_nil_r.
  - cbn [driver_each]. rewrite Hok, IH. cbn [log_call __insert_buffer calls map].
    by rewrite <- app_assoc.
Qed.

(** The scan sorts the desired queries by the server's view of them. *)
#[local] Set Warnings "-clear-no-such-hyp".
Lemma scan_continuous_queries_spec cq_dict cqs add0 alter0 add alter :
  scan_continuous_queries cq_dict cqs add0 alter0 = (add, alter) ->
  (forall cq, In cq add <-> In cq add0 \/ (In cq cqs /\ cq_absent cq_dict cq)) /\
  (forall cq, In cq alter <-> In cq alter0 \/ (In cq cqs /\ cq_differs cq_dict cq)).
Proof.
  revert add0 alter0.
  induction cqs as [|cq0 cqs IH]; intros add0 alter0; cbn [scan_continuous_queries].
  - intros [= <- <-]. split; intros cq; cbn; tauto.
  - destruct (cq_dict !! cq_name cq0) as [result_cq|] eqn:Hlook;
      [destruct (decide (result_cq = cq_to_query cq0)) as [Heq|Hne]|];
      intros H; apply IH in H as [Hadd Halter]; split; intros cq;
      rewrite ?Hadd, ?Halter, ?in_app_iff; cbn [In];
      unfold cq_absent, cq_differs; naive_solver.
Qed.
#[local] Set Warnings "+clear-no-such-hyp".
End ContinuousQueries.

(** C8.  When the server answers the listing and accepts every request,
    [check_create_cq] returns after the listing, one drop per desired
    query the server reports with another text, and then one create per
    desired query that is absent or was dropped; every drop is sent
    before any create, and a desired query the server reports with the
    rendered text is neither dropped nor created. *)
Theorem check_create_cq_reconciles (w : World) (self : InfluxClient) (s : Store)
    (results : list (gmap string (list (string * string)))) :
  driver_list_cq w (calls s) get_list_continuous_queries = inr results ->
  driver_accepts w ->
  let cq_dict := server_cq_dict self results in
  let desired := continuous_queries (database self) in
  exists add alter,
    check_create_cq w self s
    = (Return tt,
       {| __insert_buffer := __insert_buffer s;
          calls := calls s ++ [get_list_continuous_queries]
                     ++ map drop_request alter
                     ++ map create_continuous_query (add ++ alter) |}) /\
    (forall cq, In cq add <-> In cq desired /\ cq_absent cq_dict cq) /\
    (forall cq, In cq alter <-> In cq desired /\ cq_differs cq_dict cq) /\
    (forall cq, cq_same cq_dict cq -> ~ In cq add /\ ~ In cq alter).
Proof.
  intros Hlist Hok cq_dict desired.
  destruct (scan_continuous_queries cq_dict desired [] []) as [add alter] eqn:Hscan.
  exists add, alter.
  apply scan_continuous_queries_spec in Hscan as Hspec. destruct Hspec as [Hadd Halter].
  assert (forall cq, In cq add <-> In cq desired /\ cq_absent cq_dict cq) as Hadd'.
  { intros cq. rewrite Hadd. cbn. tauto. }
  assert (forall cq, In cq alter <-> In cq desired /\ cq_differs cq_dict cq) as Halter'.
  { intros cq. rewrite Halter. cbn. tauto. }
  split; [|split; [exact Hadd'|split; [exact Halter'|]]].
  - unfold check_create_cq, check_create_cq_body. rewrite Hlist.
    fold (server_cq_dict self results). fold cq_dict. fold desired. rewrite Hscan.
    unfold bind. rewrite !driver_each_ok by done.
    cbn [log_call __insert_buffer calls]. by rewrite <- !app_assoc.
  - intros cq Hsame. split; intros Hin.
    + apply Hadd' in Hin as [_ Habs].
      unfold cq_same, cq_absent in *. congruence.
    + apply Halter' in Hin as [_ (r & Hr & Hd)].
      unfold cq_same in *. congruence.
Qed.

Lemma check_create_cq_reconciles_witness :
  calls (check_create_cq Demo.reporting Demo.three_cqs Demo.fresh).2
  = [get_list_continuous_queries;
     drop_continuous_query "cq_changed" "sppmon";
     create_continuous_query (Demo.cq "cq_new" "q1");
     create_continuous_query (Demo.cq "cq_changed" "q2")].
Proof.
  destruct (check_create_cq_reconciles Demo.reporting Demo.three_cqs Demo.fresh _ eq_refl)
    as (add & alter & Hrun & _); [done|].
  vm_compute. reflexivity.
Defined.

(** ** A table mapped to an empty sequence *)

Section EmptySequence.
Variable w : World.
Implicit Types (self : InfluxClient) (s : Store).

Lemma omap_all_none {A B} (f : A -> option B) (xs : list A) :
  Forall (fun x => f x = None) xs -> omap f xs = [].
Proof. induction 1 as [|x xs Hx _ IH]; [done|]. cbn. by rewrite Hx. Qed.

(** Rows that all fail classification leave an empty sequence under a
    table that had no entry. *)
Lemma insert_dicts_all_skipped self table_name rows s :
  table_name <> "" -> rows <> [] ->
  Forall (fun mydict =>
            make_insert_query w (db_getitem (database self) table_name) mydict = None)
    rows ->
  dict_get (db_getitem (database self) table_name) (__insert_buffer s) = None ->
  insert_dicts_to_buffer w self table_name (Some rows) s
  = (Return tt,
     set_buffer (__insert_buffer s ++ [(db_getitem (database self) table_name, [])]) s).
Proof.
  intros Hname Hrows Hskip Hfresh. rewrite insert_dicts_unfold by done.
  unfold pending. rewrite appended_lookup. unfold appended.
  rewrite omap_all_none by done. rewrite Hfresh. cbn [default from_option id app].
  by rewrite dict_set_fresh.
Qed.

(** The flush stops at the first table mapped to an empty sequence. *)
Lemma flush_empty_sequence self s before table after :
  no_connection_error w -> positive_durations w ->
  __insert_buffer s = before ++ (table, []) :: after ->
  Forall (fun item => item.2 <> []) before ->
  flush_insert_buffer w self s
  = (Raise (ValueError
              "only positive values are supported for batch_size. Must be not 0"),
     {| __insert_buffer :=
          with_metrics self (flush_metrics w self (calls s) (snapshot w before)) [];
        calls := calls s ++ flush_requests self (snapshot w before)
                   ++ [write_request self table []] |}).
Proof.
  intros Hconn Hpos Hbuf Hbefore.
  rewrite flush_nonempty by (rewrite Hbuf; by destruct before).
  rewrite Hbuf, snapshot_app, send_insert_list_app. unfold bind.
  rewrite send_insert_list_ok by auto using snapshot_nonempty.
  cbn [snapshot map fst snd]. rewrite send_insert_list_step by apply Hconn.
  unfold bind. cbn [len length Z.of_nat].
  rewrite insert_metrics_empty_batch by apply Hpos.
  unfold log_call, flushed, set_buffer. cbn [__insert_buffer calls].
  by rewrite <- app_assoc.
Qed.

(** A buffer with an empty sequence has a first one. *)
Lemma first_empty_sequence (buffer : list (Table * list InsertQuery)) :
  Exists (fun item => item.2 = []) buffer ->
  exists before table after,
    buffer = before ++ (table, []) :: after /\
    Forall (fun item => item.2 <> []) before.
Proof.
  induction buffer as [|[table queries] buffer IH]; intros H.
  - by apply Exists_nil in H.
  - destruct queries as [|query queries].
    + by exists [], table, buffer.
    + apply Exists_cons in H as [H|H]; [done|].
      destruct (IH H) as (before & table' & after & -> & Hbefore).
      exists ((table, query :: queries) :: before), table', after.
      split; [done|]. by constructor.
Qed.
End EmptySequence.

(** C9.  With a driver that raises no transport error and positive
    measured durations: a call of [insert_dicts_to_buffer] with a
    non-empty row list whose rows all fail classification, for a table
    without an entry in the buffer, returns leaving that table mapped to
    an empty sequence; and a flush of a buffer in which a table maps to
    an empty sequence, after tables with non-empty sequences, raises the
    [ValueError] of the [batch_size < 1] check once that table's request
    was sent: no request is sent for the tables after it, and the buffer
    keeps only the metrics of the tables before it. *)
Theorem empty_sequence_aborts_flush (w : World) (self : InfluxClient) :
  no_connection_error w -> positive_durations w ->
  (forall table_name rows s,
     table_name <> "" -> rows <> [] ->
     Forall (fun mydict =>
               make_insert_query w (db_getitem (database self) table_name) mydict = None)
       rows ->
     dict_get (db_getitem (database self) table_name) (__insert_buffer s) = None ->
     let s1 := (insert_dicts_to_buffer w self table_name (Some rows) s).2 in
     insert_dicts_to_buffer w self table_name (Some rows) s = (Return tt, s1) /\
     dict_get (db_getitem (database self) table_name) (__insert_buffer s1) = Some [] /\
     exists s2,
       flush_insert_buffer w self s1
       = (Raise (ValueError
                   "only positive values are supported for batch_size. Must be not 0"),
          s2)) /\
  (forall s before table after,
     __insert_buffer s = before ++ (table, []) :: after ->
     Forall (fun item => item.2 <> []) before ->
     flush_insert_buffer w self s
     = (Raise (ValueError
                 "only positive values are supported for batch_size. Must be not 0"),
        {| __insert_buffer :=
             with_metrics self (flush_metrics w self (calls s) (snapshot w before)) [];
           calls := calls s ++ flush_requests self (snapshot w before)
                      ++ [write_request self table []] |})).
Proof.
  intros Hconn Hpos. split.
  - intros table_name rows s Hname Hrows Hskip Hfresh.
    rewrite insert_dicts_all_skipped by done. cbn [snd]. split; [done|]. split.
    + cbn [set_buffer __insert_buffer]. rewrite <- dict_set_fresh by done.
      apply dict_get_set_eq.
    + destruct (first_empty_sequence
                  (__insert_buffer s ++ [(db_getitem (database self) table_name, [])]))
        as (before & table & after & Hbuf & Hbefore).
      { apply Exists_app. right. by constructor. }
      eexists. by apply (flush_empty_sequence w self _ before table after).
  - intros s before table after Hbuf Hbefore.
    by apply (flush_empty_sequence w self s before table after).
Qed.

Lemma empty_sequence_aborts_flush_witness :
  insert_dicts_to_buffer Demo.calm Demo.client "A" (Some [[]]) Demo.fresh
  = (Return tt, {| __insert_buffer := [(Demo.table_of "A", [])]; calls := [] |}) /\
  flush_insert_buffer Demo.calm Demo.client Demo.empty_then_b
  = (Raise (ValueError
              "only positive values are supported for batch_size. Must be not 0"),
     {| __insert_buffer := [];
        calls := [write_request Demo.client (Demo.table_of "A") []] |}).
Proof.
  destruct (empty_sequence_aborts_flush Demo.calm Demo.client) as [Hreach Hflush].
  - by intros history request.
  - by intros history.
  - split.
    + destruct (Hreach "A" [[]] Demo.fresh) as (Hret & _ & _); try done.
      by repeat constructor.
    + apply (Hflush Demo.empty_then_b [] (Demo.table_of "A")
               [(Demo.table_of "B", [Demo.record "B"])]); [done|by constructor].
Defined.

(** ** Errors the two [except] clauses do not name *)

Section DriverErrors.
Variable w : World.
Implicit Types (self : InfluxClient) (s : Store) (q : SelectionQuery).

Lemma dict_set_values (c : Z) (table : Table) (tables_count : list (Table * Z)) :
  Forall (fun item => item.2 = c) tables_count ->
  Forall (fun item => item.2 = c) (dict_set table c tables_count).
Proof.
  induction 1 as [|[table' c'] tables_count Hc Htail IH]; cbn.
  - by repeat constructor.
  - destruct (decide (table = table')); by constructor.
Qed.

Lemma dict_set_not_nil {V} (table : Table) (v : V) (d : list (Table * V)) :
  dict_set table v d <> [].
Proof. destruct d as [|[table' v'] d]; cbn; [done|]. by destruct (decide _). Qed.

(** Every queried table gets the same count, and a query with a table
    gets a non-empty [tables_count]. *)
Lemma selection_tables_count_spec (tables : list Table) (length : Z) :
  Forall (fun item => item.2 = length / len tables)
    (selection_tables_count tables length) /\
  (tables <> [] -> selection_tables_count tables length <> []).
Proof.
  unfold selection_tables_count. generalize (length / len tables). intros c.
  assert (forall acc : list (Table * Z),
            Forall (fun item => item.2 = c) acc ->
            Forall (fun item => item.2 = c)
              (foldl (fun tables_count table => dict_set table c tables_count) acc tables) /\
            (tables <> [] \/ acc <> [] ->
             foldl (fun tables_count table => dict_set table c tables_count) acc tables
             <> [])) as H.
  { induction tables as [|table tables IH]; intros acc Hacc; cbn.
    - split; [done|]. by intros [?|?].
    - destruct (IH (dict_set table c acc)) as [H1 H2]; [by apply dict_set_values|].
      split; [done|]. intros _. apply H2. right. apply dict_set_not_nil. }
  destruct (H []) as [H1 H2]; [constructor|]. split; [done|]. intros Hne. by apply H2; left.
Qed.

(** An [InfluxDBServerError] or [InfluxDBClientError] of the query is
    swallowed: the call returns the empty result and records every
    queried table with count 0. *)
Lemma send_query_swallows_influx_error self q s e :
  driver_query w (calls s) (query_request self q) = inl e ->
  e <> ConnectionError ->
  sq_tables q <> [] ->
  (0 < perf_elapsed w (calls s))%Q ->
  let tables_count := selection_tables_count (sq_tables q) 0 in
  let s1 := log_call (query_request self q) s in
  send_query w self q s
  = (Return [],
     set_buffer
       (with_metrics self
          (querys w self (sq_keyword q) tables_count (perf_elapsed w (calls s)) 1
             (calls s1))
          (__insert_buffer s1)) s1) /\
  Forall (fun item => item.2 = 0) tables_count.
Proof.
  intros Hq He Htables Hpos tables_count s1.
  destruct (selection_tables_count_spec (sq_tables q) 0) as [Hcount Hne].
  rewrite Z.div_0_l in Hcount by (unfold len; destruct (sq_tables q); [done|cbn; lia]).
  split; [|done].
  unfold send_query. fold (query_request self q). rewrite Hq.
  destruct e; [| |done]; cbn [result_length]; unfold bind, ret;
    fold tables_count; fold s1; rewrite insert_metrics_ok; auto; lia.
Qed.
End DriverErrors.

(** C2 where the code departs from it.  Let the first table of the
    buffer be followed by other tables.  When the driver answers the
    first table's request with a [ConnectionError], the error leaves the
    flush; when the first table maps to an empty sequence, the metrics
    call that follows its request raises a [ValueError].  Either way the
    flush ends with the buffer cleared and that one request sent: no
    metrics record is appended and no later table's batch is sent. *)
Theorem flush_aborted_by_uncaught_errors (w : World) (self : InfluxClient)
    (s : Store) (table : Table) (queries : list InsertQuery)
    (rest : list (Table * list InsertQuery)) :
  __insert_buffer s = (table, queries) :: rest ->
  let request := write_request self table (map (to_query w) queries) in
  let aborted := {| __insert_buffer := []; calls := calls s ++ [request] |} in
  (driver_do w (calls s) request = Some ConnectionError ->
   flush_insert_buffer w self s = (Raise (DriverException ConnectionError), aborted)) /\
  (queries = [] ->
   driver_do w (calls s) request <> Some ConnectionError ->
   (0 < perf_elapsed w (calls s))%Q ->
   flush_insert_buffer w self s
   = (Raise (ValueError
               "only positive values are supported for batch_size. Must be not 0"),
      aborted)).
Proof.
  intros Hbuf request aborted.
  assert (flush_insert_buffer w self s
          = send_insert_list w self
              ((table, map (to_query w) queries) :: snapshot w rest)
              (set_buffer [] s)) as ->.
  { rewrite flush_nonempty by (by rewrite Hbuf). by rewrite Hbuf. }
  split.
  - intros Hconn. cbn [send_insert_list set_buffer calls]. fold request.
    by rewrite Hconn.
  - intros -> Hconn Hpos. rewrite send_insert_list_step by done.
    unfold bind. cbn [map len length Z.of_nat set_buffer log_call calls].
    by rewrite insert_metrics_empty_batch by done.
Qed.

Lemma flush_aborted_by_uncaught_errors_witness :
  flush_insert_buffer Demo.offline Demo.client Demo.two_tables
  = (Raise (DriverException ConnectionError),
     {| __insert_buffer := [];
        calls := [write_request Demo.client (Demo.table_of "A") ["A"]] |}) /\
  flush_insert_buffer Demo.calm Demo.client Demo.empty_then_b
  = (Raise (ValueError
              "only positive values are supported for batch_size. Must be not 0"),
     {| __insert_buffer := [];
        calls := [write_request Demo.client (Demo.table_of "A") []] |}).
Proof.
  split.
  - destruct (flush_aborted_by_uncaught_errors Demo.offline Demo.client Demo.two_tables
                (Demo.table_of "A") [Demo.record "A"]
                [(Demo.table_of "B", [Demo.record "B"])] eq_refl) as [Hconn _].
    exact (Hconn eq_refl).
  - destruct (flush_aborted_by_uncaught_errors Demo.calm Demo.client Demo.empty_then_b
                (Demo.table_of "A") [] [(Demo.table_of "B", [Demo.record "B"])]
                eq_refl) as [_ Hempty].
    apply Hempty; [reflexivity|discriminate|reflexivity].
Defined.

(** A server that rejects every batch does not stop the flush: both
    batches are sent and both tables are recorded. *)
Example flush_with_rejecting_server :
  exists metrics_a metrics_b,
    flush_insert_buffer Demo.rejecting Demo.client Demo.two_tables
    = (Return tt,
       {| __insert_buffer := [(__metrics_table Demo.client, [metrics_a; metrics_b])];
          calls := [write_request Demo.client (Demo.table_of "A") ["A"];
                    write_request Demo.client (Demo.table_of "B") ["B"]] |}) /\
    iq_tags metrics_a = [("keyword", VKeyword INSERT); ("tableName", VStr "A")] /\
    iq_tags metrics_b = [("keyword", VKeyword INSERT); ("tableName", VStr "B")].
Proof. by eexists _, _. Qed.

(** C7 where the code departs from it.  When no queried table is
    buffered and the driver answers the query with a [ConnectionError],
    the error leaves [send_selection_query]: no result is returned and
    the buffer is as before, without a metrics record. *)
Theorem selection_query_propagates_connection_error (w : World)
    (self : InfluxClient) (q : SelectionQuery) (s : Store) :
  (forall table, In table (sq_tables q) -> dict_get table (__insert_buffer s) = None) ->
  driver_query w (calls s) (query_request self q) = inl ConnectionError ->
  send_selection_query w self q s
  = (Raise (DriverException ConnectionError),
     {| __insert_buffer := __insert_buffer s;
        calls := calls s ++ [query_request self q] |}).
Proof.
  intros Hnone Hq. rewrite send_selection_query_unbuffered by done.
  unfold send_query. fold (query_request self q). by rewrite Hq.
Qed.

Lemma selection_query_propagates_connection_error_witness :
  send_selection_query Demo.offline Demo.client Demo.select_a Demo.fresh
  = (Raise (DriverException ConnectionError),
     {| __insert_buffer := [];
        calls := [query_request Demo.client Demo.select_a] |}).
Proof.
  apply (selection_query_propagates_connection_error Demo.offline Demo.client
           Demo.select_a Demo.fresh); [|reflexivity].
  intros table Hin. reflexivity.
Defined.

(** A server error of the query is swallowed. *)
Example selection_query_with_rejecting_server :
  exists metrics,
    send_selection_query Demo.rejecting Demo.client Demo.select_a Demo.fresh
    = (Return [],
       {| __insert_buffer := [(__metrics_table Demo.client, [metrics])];
          calls := [query_request Demo.client Demo.select_a] |}) /\
    iq_fields metrics = [("duration_ms", VFloat (duration_ms 1 0 1)); ("item_count", VInt 0)].
Proof. by eexists. Qed.

(** ** One buffer for all instances *)

Section Shared.
Variable w : World.
Implicit Types (a b self : InfluxClient) (s : Store).

(** A flush through [self] of a non-empty buffer leaves nothing but
    metrics of [self], whatever was buffered and whatever the outcome. *)
Lemma flush_drains self s r s' :
  __insert_buffer s <> [] ->
  flush_insert_buffer w self s = (r, s') ->
  only_metrics self (__insert_buffer s').
Proof.
  intros Hne H. rewrite flush_nonempty in H by done.
  apply send_insert_list_any in H as (k & _ & Hb & _).
  eexists. split; [exact Hb|]. apply Forall_take, flush_metrics_built.
Qed.

Lemma only_metrics_nil self : only_metrics self [].
Proof. exists []. by split. Qed.

(** So does a flush of a buffer that already holds nothing else. *)
Lemma flush_keeps_only_metrics self s r s' :
  only_metrics self (__insert_buffer s) ->
  flush_insert_buffer w self s = (r, s') ->
  only_metrics self (__insert_buffer s').
Proof.
  intros Hs H. destruct (decide (__insert_buffer s = [])) as [He|Hne].
  - rewrite flush_empty in H by done. by injection H as <- <-.
  - by eapply flush_drains.
Qed.

Lemma disconnect_drains self s r s' :
  __insert_buffer s <> [] ->
  disconnect w self s = (r, s') ->
  only_metrics self (__insert_buffer s').
Proof.
  intros Hne. unfold disconnect, bind.
  destruct (flush_insert_buffer w self s) as [[[]|e1] s1] eqn:H1.
  - apply flush_drains in H1; [|done].
    destruct (flush_insert_buffer w self s1) as [[[]|e2] s2] eqn:H2;
      apply (flush_keeps_only_metrics _ _ _ _ H1) in H2;
      [|destruct e2]; by intros [= <- <-].
  - apply flush_drains in H1; [|done]. destruct e1; by intros [= <- <-].
Qed.
End Shared.

(** C10.  The buffer is one value of the store, read and mutated by the
    methods of every instance.  For any instances [a] and [b]: the
    records ingested through [a] (here without reaching the safeguard)
    sit in the buffer [b] works on; a flush through [b] that returns has
    sent them in a request of [b], to the database of [b]; and after a
    flush or a disconnect through [b], whatever its outcome, the buffer
    holds nothing but metrics records built by [b]. *)
Theorem insert_buffer_shared (w : World) (a b : InfluxClient)
    (table_name : string) (rows : list Row) (s : Store) :
  table_name <> "" -> rows <> [] ->
  let table := db_getitem (database a) table_name in
  let s1 := appended w a table_name rows s in
  pending table s1 <= 5 * 10000 ->
  exists records,
    insert_dicts_to_buffer w a table_name (Some rows) s = (Return tt, s1) /\
    dict_get table (__insert_buffer s1) = Some records /\
    (forall record, In record (omap (make_insert_query w table) rows) ->
                    In record records) /\
    (forall s2, flush_insert_buffer w b s1 = (Return tt, s2) ->
       In (write_request b table (map (to_query w) records)) (calls s2)) /\
    (forall r s2, flush_insert_buffer w b s1 = (r, s2) ->
       only_metrics b (__insert_buffer s2)) /\
    (forall r s2, disconnect w b s1 = (r, s2) ->
       only_metrics b (__insert_buffer s2)).
Proof.
  intros Hname Hrows table s1 Hpending.
  pose proof (appended_lookup w a table_name rows s) as Hlook.
  cbn zeta in Hlook. fold table in Hlook. fold s1 in Hlook.
  assert (__insert_buffer s1 <> []) as Hne.
  { intros Hnil. by rewrite Hnil in Hlook. }
  eexists. split; [|split; [exact Hlook|split; [|split; [|split]]]].
  - rewrite insert_dicts_unfold by done. fold table. fold s1.
    change (5 * __query_max_batch_size) with (5 * 10000).
    destruct (pending table s1 >? 5 * 10000) eqn:E; [|done].
    apply Z.gtb_lt in E. lia.
  - intros record Hin. apply in_app_iff. by right.
  - intros s2 H. rewrite flush_nonempty in H by done.
    apply send_insert_list_return in H as ->.
    cbn [flushed calls]. apply in_app_iff. right.
    unfold flush_requests, snapshot. rewrite map_map.
    apply dict_get_In in Hlook.
    by apply (in_map (fun item => write_request b item.1 (map (to_query w) item.2)))
      in Hlook.
  - intros r s2 H. by eapply flush_drains.
  - intros r s2 H. by eapply disconnect_drains.
Qed.

Lemma insert_buffer_shared_witness :
  let s1 := (insert_dicts_to_buffer Demo.calm Demo.client "A" (Some [Demo.row])
               Demo.fresh).2 in
  __insert_buffer s1 = [(Demo.table_of "A", [Demo.record "A"])] /\
  In (write_points ["A"] "other" "autogen" 10000)
    (calls (flush_insert_buffer Demo.calm Demo.other_client s1).2) /\
  only_metrics Demo.other_client
    (__insert_buffer (disconnect Demo.calm Demo.other_client s1).2).
Proof.
  destruct (insert_buffer_shared Demo.calm Demo.client Demo.other_client "A"
              [Demo.row] Demo.fresh)
    as (records & Hret & Hlook & _ & Hsent & _ & Hdisc); [done|done| |].
  - vm_compute. discriminate.
  - injection Hlook as <-. split; [reflexivity|]. split.
    + exact (Hsent _ eq_refl).
    + exact (Hdisc _ _ eq_refl).
Defined.

(** * Further properties *)

(** ** Dictionaries, continued *)

Section MoreDictFacts.
Context {V : Type}.
Implicit Types (d : list (Table * V)) (k : Table) (v : V).

Lemma dict_get_set_ne k k' v d :
  k <> k' -> dict_get k' (dict_set k v d) = dict_get k' d.
Proof.
  intros Hne. induction d as [|[k0 v0] d IH]; cbn.
  - by rewrite decide_False by done.
  - destruct (decide (k = k0)) as [->|Hk]; cbn.
    + by rewrite !decide_False by done.
    + destruct (decide (k' = k0)); [done|apply IH].
Qed.

Lemma keys_dict_set k v d :
  keys (dict_set k v d) = if dict_mem k d then keys d else keys d ++ [k].
Proof.
  unfold dict_mem, keys. induction d as [|[k0 v0] d IH]; cbn; [done|].
  destruct (decide (k = k0)) as [->|Hk]; cbn; [done|].
  rewrite IH. by destruct (dict_get k d).
Qed.
End MoreDictFacts.

(** ** [insert_dicts_to_buffer], continued *)

Section MoreIngest.
Variable w : World.
Implicit Types (self : InfluxClient) (s : Store).

Lemma appended_skips self table_name rows1 mydict rows2 s :
  make_insert_query w (db_getitem (database self) table_name) mydict = None ->
  appended w self table_name (rows1 ++ mydict :: rows2) s
  = appended w self table_name (rows1 ++ rows2) s.
Proof.
  intros Hskip. unfold appended. rewrite !omap_app. cbn. by rewrite Hskip.
Qed.

Lemma appended_appended self table_name rows1 rows2 s :
  appended w self table_name rows2 (appended w self table_name rows1 s)
  = appended w self table_name (rows1 ++ rows2) s.
Proof.
  unfold appended. cbn [set_buffer __insert_buffer calls].
  rewrite dict_get_set_eq, dict_set_set. simpl.
  by rewrite omap_app, app_assoc.
Qed.
End MoreIngest.

(** An ingestion below the safeguard returns, sends nothing, and
    changes one dictionary entry only: the table's sequence becomes the
    old one followed by the rows that classify, in their order; every
    other table keeps its sequence; the keys keep their order, the
    table being added last when it was not a key. *)
Theorem insert_dicts_appends_in_order (w : World) (self : InfluxClient)
    (table_name : string) (rows : list Row) (s : Store) :
  table_name <> "" -> rows <> [] ->
  let table := db_getitem (database self) table_name in
  let old := default [] (dict_get table (__insert_buffer s)) in
  len old + len (omap (make_insert_query w table) rows) <= 5 * 10000 ->
  exists s1,
    insert_dicts_to_buffer w self table_name (Some rows) s = (Return tt, s1) /\
    calls s1 = calls s /\
    dict_get table (__insert_buffer s1)
    = Some (old ++ omap (make_insert_query w table) rows) /\
    (forall other, other <> table ->
       dict_get other (__insert_buffer s1) = dict_get other (__insert_buffer s)) /\
    keys (__insert_buffer s1)
    = if dict_mem table (__insert_buffer s) then keys (__insert_buffer s)
      else keys (__insert_buffer s) ++ [table].
Proof.
  intros Hname Hrows table old Hlen.
  exists (appended w self table_name rows s).
  split; [|split; [done|split; [apply appended_lookup|split]]].
  - rewrite insert_dicts_unfold by done.
    unfold pending. rewrite appended_lookup. fold table. fold old. cbn [default from_option id].
    unfold len in *. rewrite length_app.
    destruct (_ >? _) eqn:E; [|done].
    apply Z.gtb_lt in E. change __query_max_batch_size with 10000 in E. lia.
  - intros other Hother. unfold appended. cbn [set_buffer __insert_buffer].
    fold table. by rewrite dict_get_set_ne.
  - unfold appended. cbn [set_buffer __insert_buffer]. fold table.
    apply keys_dict_set.
Qed.

Lemma insert_dicts_appends_in_order_witness :
  exists s1,
    insert_dicts_to_buffer Demo.calm Demo.client "B" (Some [Demo.row; []; Demo.row])
      Demo.two_tables = (Return tt, s1) /\
    dict_get (Demo.table_of "B") (__insert_buffer s1)
    = Some [Demo.record "B"; Demo.record "B"; Demo.record "B"] /\
    dict_get (Demo.table_of "A") (__insert_buffer s1) = Some [Demo.record "A"] /\
    keys (__insert_buffer s1) = [Demo.table_of "A"; Demo.table_of "B"].
Proof.
  destruct (insert_dicts_appends_in_order Demo.calm Demo.client "B"
              [Demo.row; []; Demo.row] Demo.two_tables)
    as (s1 & Hret & _ & Hb & Hother & Hkeys); [done|done|vm_compute; discriminate|].
  exists s1. split; [exact Hret|]. split; [exact Hb|]. split; [|exact Hkeys].
  rewrite Hother; [reflexivity|discriminate].
Defined.

(** A row that fails classification is skipped alone: when another row
    is passed with it, the ingestion behaves as if the failing row had
    not been passed. *)
Theorem insert_dicts_skips_single_row (w : World) (self : InfluxClient)
    (table_name : string) (rows1 rows2 : list Row) (mydict : Row) (s : Store) :
  make_insert_query w (db_getitem (database self) table_name) mydict = None ->
  rows1 ++ rows2 <> [] ->
  insert_dicts_to_buffer w self table_name (Some (rows1 ++ mydict :: rows2)) s
  = insert_dicts_to_buffer w self table_name (Some (rows1 ++ rows2)) s.
Proof.
  intros Hskip Hrows. destruct (decide (table_name = "")) as [->|Hname]; [done|].
  rewrite !insert_dicts_unfold; try done; [|by destruct rows1].
  by rewrite appended_skips.
Qed.

Lemma insert_dicts_skips_single_row_witness :
  insert_dicts_to_buffer Demo.calm Demo.client "A" (Some [Demo.row; []]) Demo.fresh
  = insert_dicts_to_buffer Demo.calm Demo.client "A" (Some [Demo.row]) Demo.fresh.
Proof.
  apply (insert_dicts_skips_single_row Demo.calm Demo.client "A" [Demo.row] [] []
           Demo.fresh); [reflexivity|discriminate].
Defined.

(** Two ingestions for one table compose: when the first one stays
    below the safeguard, ingesting [rows1] and then [rows2] has the
    outcome of ingesting [rows1 ++ rows2] at once. *)
Theorem insert_dicts_compose (w : World) (self : InfluxClient)
    (table_name : string) (rows1 rows2 : list Row) (s : Store) :
  rows1 <> [] -> rows2 <> [] ->
  pending (db_getitem (database self) table_name)
    (appended w self table_name rows1 s) <= 5 * 10000 ->
  (do _ <- insert_dicts_to_buffer w self table_name (Some rows1);
   insert_dicts_to_buffer w self table_name (Some rows2)) s
  = insert_dicts_to_buffer w self table_name (Some (rows1 ++ rows2)) s.
Proof.
  intros Hrows1 Hrows2 Hpending. unfold bind.
  destruct (decide (table_name = "")) as [->|Hname]; [done|].
  rewrite (insert_dicts_unfold w self table_name rows1) by done.
  destruct (_ >? _) eqn:E.
  { apply Z.gtb_lt in E. change __query_max_batch_size with 10000 in E. lia. }
  rewrite !insert_dicts_unfold; try done; [|by destruct rows1].
  by rewrite appended_appended.
Qed.

Lemma insert_dicts_compose_witness :
  (do _ <- insert_dicts_to_buffer Demo.calm Demo.client "A" (Some [Demo.row]);
   insert_dicts_to_buffer Demo.calm Demo.client "A" (Some [[]; Demo.row])) Demo.fresh
  = insert_dicts_to_buffer Demo.calm Demo.client "A"
      (Some [Demo.row; []; Demo.row]) Demo.fresh.
Proof.
  apply (insert_dicts_compose Demo.calm Demo.client "A" [Demo.row] [[]; Demo.row]
           Demo.fresh); [discriminate|discriminate|vm_compute; discriminate].
Defined.

(** ** The metrics recorder, continued *)

(** [__insert_metrics_to_buffer] returns exactly when it is given a
    table, a positive duration and a batch size of at least 1.  It
    never calls the driver; when it raises, the store is as before;
    when it returns, only the sequence of the metrics table changed. *)
Theorem insert_metrics_outcomes (w : World) (self : InfluxClient)
    (keyword : Keyword) (tables_count : list (Table * Z)) (duration_s : Q)
    (batch_size : Z) (s : Store) :
  let result :=
    __insert_metrics_to_buffer w self keyword tables_count duration_s batch_size s in
  (result.1 = Return tt <->
   tables_count <> [] /\ (0 < duration_s)%Q /\ 1 <= batch_size) /\
  (result.1 <> Return tt -> result.2 = s) /\
  calls result.2 = calls s /\
  (forall other, other <> __metrics_table self ->
     dict_get other (__insert_buffer result.2) = dict_get other (__insert_buffer s)).
Proof.
  intros result. unfold result.
  destruct (__insert_metrics_to_buffer _ _ _ _ _ _ _) as [[[]|e] s'] eqn:Hm; cbn [fst snd].
  - apply insert_metrics_return in Hm as (Ht & Hd & Hb & ->).
    split; [done|]. split; [done|]. split; [done|].
    intros other Hother. cbn [set_buffer __insert_buffer].
    destruct tables_count; [done|]. unfold querys. cbn [imap with_metrics].
    by rewrite dict_get_set_ne.
  - pose proof Hm as Hs. apply insert_metrics_raise in Hs as ->.
    split; [|done]. split; [done|]. intros (Ht & Hd & Hb).
    rewrite insert_metrics_ok in Hm by done. done.
Qed.

(** ** [flush_insert_buffer] and [disconnect], continued *)

Section MoreFlush.
Variable w : World.
Implicit Types (self : InfluxClient) (s : Store).

Lemma insert_metrics_one_table self keyword item duration_s batch_size s e s' :
  __insert_metrics_to_buffer w self keyword [item] duration_s batch_size s
    = (Raise e, s') ->
  flush_outcome (Raise e).
Proof.
  unfold __insert_metrics_to_buffer, flush_outcome.
  destruct (Qle_bool duration_s 0); [intros [= <- _]; auto|].
  destruct (batch_size <? 1); [intros [= <- _]; auto|done].
Qed.

Lemma send_insert_list_outcome self insert_list s r s' :
  send_insert_list w self insert_list s = (r, s') ->
  flush_outcome r /\
  exists j, calls s' = calls s ++ take j (flush_requests self insert_list) /\
            (r = Return tt -> take j (flush_requests self insert_list)
                              = flush_requests self insert_list).
Proof.
  revert s. induction insert_list as [|[table queries_str] rest IH]; intros s.
  - cbn. intros [= <- <-]. split; [by left|]. exists 0%nat. by rewrite app_nil_r.
  - destruct (decide (driver_do w (calls s) (write_request self table queries_str)
                      = Some ConnectionError)) as [He|Hne].
    + cbn [send_insert_list]. rewrite He. intros [= <- <-].
      split; [right; by left|]. by exists 1%nat.
    + rewrite send_insert_list_step by done. unfold bind.
      destruct (__insert_metrics_to_buffer _ _ _ _ _ _ _) as [[[]|e] s1] eqn:Hm.
      * apply insert_metrics_return in Hm as (_ & _ & _ & ->).
        intros H. apply IH in H as (Hout & j & Hc & Hall).
        split; [done|]. exists (S j). split.
        -- rewrite Hc. cbn [flush_requests map take set_buffer log_call calls fst snd].
           by rewrite <- app_assoc.
        -- intros Hr. cbn [flush_requests map take fst snd]. f_equal. by apply Hall.
      * pose proof Hm as Hs. apply insert_metrics_raise in Hs as ->.
        apply insert_metrics_one_table in Hm.
        intros [= <- <-]. split; [done|]. by exists 1%nat.
Qed.

Lemma flush_requests_are_writes self insert_list :
  Forall (is_write_request self) (flush_requests self insert_list).
Proof.
  unfold flush_requests. apply Forall_map, Forall_true.
  intros item. by eexists _, _.
Qed.

Lemma flush_ends self s r s' :
  flush_insert_buffer w self s = (r, s') ->
  flush_outcome r /\
  exists sent,
    calls s' = calls s ++ sent /\
    sent `prefix_of` flush_requests self (snapshot w (__insert_buffer s)) /\
    Forall (is_write_request self) sent /\
    (r = Return tt -> sent = flush_requests self (snapshot w (__insert_buffer s))).
Proof.
  intros H. destruct (decide (__insert_buffer s = [])) as [He|Hne].
  - rewrite flush_empty in H by done. injection H as <- <-.
    split; [by left|]. exists []. rewrite app_nil_r, He.
    repeat split; try done; apply prefix_nil.
  - rewrite flush_nonempty in H by done.
    apply send_insert_list_outcome in H as (Hout & j & Hc & Hall).
    split; [done|]. eexists. split; [exact Hc|]. split; [apply prefix_take|].
    split; [|done]. apply Forall_take, flush_requests_are_writes.
Qed.

(** What [disconnect] does with the outcome of its two flushes. *)
Lemma disconnect_ends self s r s' :
  disconnect w self s = (r, s') ->
  exists sent,
    Forall (is_write_request self) sent /\
    ((r = Return tt /\ calls s' = calls s ++ sent ++ [close]) \/
     (r = Raise (DriverException ConnectionError) /\ calls s' = calls s ++ sent)).
Proof.
  unfold disconnect, bind.
  destruct (flush_insert_buffer w self s) as [r1 s1] eqn:H1.
  apply flush_ends in H1 as (Ho1 & sent1 & Hc1 & _ & Hall1 & _).
  destruct Ho1 as [-> | [-> | [-> | ->]]].
  - destruct (flush_insert_buffer w self s1) as [r2 s2] eqn:H2.
    apply flush_ends in H2 as (Ho2 & sent2 & Hc2 & _ & Hall2 & _).
    destruct Ho2 as [-> | [-> | [-> | ->]]]; intros [= <- <-];
      exists (sent1 ++ sent2); (split; [by apply Forall_app|]);
      cbn [log_call calls]; rewrite Hc2, Hc1, <- ?app_assoc; auto.
  - intros [= <- <-]. exists sent1. auto.
  - intros [= <- <-]. exists sent1. cbn [log_call calls].
    rewrite Hc1, <- app_assoc. auto.
  - intros [= <- <-]. exists sent1. cbn [log_call calls].
    rewrite Hc1, <- app_assoc. auto.
Qed.
End MoreFlush.

(** Whatever the buffer and the driver, [flush_insert_buffer] ends in
    one of four ways: it returns, or it raises the driver's
    [ConnectionError], or one of the two [ValueError]s of the metrics
    recorder.  The requests it sends are the first batches of the
    buffer, in the order of its keys, each a [write_points] to the
    database of the instance with the maximum batch size; when it
    returns, every batch was sent. *)
Theorem flush_outcomes_and_requests (w : World) (self : InfluxClient)
    (s : Store) (r : Outcome unit) (s' : Store) :
  flush_insert_buffer w self s = (r, s') ->
  flush_outcome r /\
  exists sent,
    calls s' = calls s ++ sent /\
    sent `prefix_of` flush_requests self (snapshot w (__insert_buffer s)) /\
    Forall (is_write_request self) sent /\
    (r = Return tt -> sent = flush_requests self (snapshot w (__insert_buffer s))).
Proof. apply flush_ends. Qed.

Lemma flush_outcomes_and_requests_witness :
  flush_outcome (flush_insert_buffer Demo.rejecting Demo.client Demo.two_tables).1 /\
  exists sent,
    calls (flush_insert_buffer Demo.rejecting Demo.client Demo.two_tables).2 = sent /\
    Forall (is_write_request Demo.client) sent.
Proof.
  destruct (flush_outcomes_and_requests Demo.rejecting Demo.client Demo.two_tables
              _ _ eq_refl) as (Hout & sent & Hc & _ & Hall & _).
  split; [exact Hout|]. exists sent. split; [exact Hc|exact Hall].
Defined.

(** [disconnect] never raises a [ValueError]: it returns, with [close]
    as its last driver call, unless a flush raised the driver's
    [ConnectionError], which it lets through without closing the
    client.  Before that it sends [write_points] requests only.  On an
    empty buffer [close] is its only call. *)
Theorem disconnect_outcomes (w : World) (self : InfluxClient) (s : Store) :
  (forall r s',
     disconnect w self s = (r, s') ->
     exists sent,
       Forall (is_write_request self) sent /\
       ((r = Return tt /\ calls s' = calls s ++ sent ++ [close]) \/
        (r = Raise (DriverException ConnectionError) /\ calls s' = calls s ++ sent))) /\
  (__insert_buffer s = [] -> disconnect w self s = (Return tt, log_call close s)).
Proof.
  split; [intros r s'; apply disconnect_ends|].
  intros He. unfold disconnect, bind. by rewrite !flush_empty by done.
Qed.



(** ** Reconciliation, continued *)

Section MoreReconciliation.
Variable w : World.
Implicit Types (self : InfluxClient) (s : Store).

(** A driver loop only logs requests of its list, in order, and stops
    at the first one the driver refuses. *)
Lemma driver_each_any {X : Type} (request_of : X -> DriverCall) (xs : list X) s r s' :
  driver_each w request_of xs s = (r, s') ->
  __insert_buffer s' = __insert_buffer s /\
  (r = Return tt \/ exists e, r = Raise (DriverException e)) /\
  exists done_xs,
    calls s' = calls s ++ map request_of done_xs /\
    (r = Return tt -> done_xs = xs).
Proof.
  revert s. induction xs as [|x xs IH]; intros s; cbn [driver_each].
  - intros [= <- <-]. split; [done|]. split; [by left|].
    exists []. by rewrite app_nil_r.
  - destruct (driver_do w (calls s) (request_of x)) as [e|].
    + intros [= <- <-]. split; [done|]. split; [right; by eexists|].
      by exists [x].
    + intros H. apply IH in H as (Hb & Hr & done_xs & Hc & Hall).
      split; [done|]. split; [done|]. exists (x :: done_xs). split.
      * rewrite Hc. cbn [log_call calls map]. by rewrite <- app_assoc.
      * intros Hret. f_equal. by apply Hall.
Qed.

#[local] Set Warnings "-clear-no-such-hyp".
#[local] Set Warnings "+clear-no-such-hyp".

(** Policies the server reports as declared end up in neither list. *)
Lemma scan_retention_policies_same rp_dict rps add0 alter0 (default_used : bool) :
  ((if default_used then 1 else 0) + count_default rps <= 1)%nat ->
  (forall rp, In rp rps -> rp_same rp_dict rp) ->
  scan_retention_policies rp_dict rps add0 alter0 default_used = Return (add0, alter0).
Proof.
  revert default_used. induction rps as [|rp0 rps IH]; intros default_used Hcount Hsame.
  - done.
  - rewrite count_default_cons in Hcount. cbn [scan_retention_policies].
    assert (rp_default rp0 && default_used = false) as ->.
    { destruct (rp_default rp0), default_used; cbn in *; try done; lia. }
    rewrite (Hsame rp0) by by left. rewrite decide_True by done.
    apply IH; [|intros rp Hin; apply Hsame; by right].
    destruct (rp_default rp0), default_used; cbn in *; lia.
Qed.

Lemma scan_continuous_queries_same cq_dict cqs add0 alter0 :
  (forall cq, In cq cqs -> cq_same cq_dict cq) ->
  scan_continuous_queries cq_dict cqs add0 alter0 = (add0, alter0).
Proof.
  induction cqs as [|cq0 cqs IH]; intros Hsame; [done|].
  cbn [scan_continuous_queries]. rewrite (Hsame cq0) by by left.
  rewrite decide_True by done. apply IH. intros cq Hin. apply Hsame. by right.
Qed.
End MoreReconciliation.



Section Refusals.
Variable w : World.
Implicit Types (self : InfluxClient) (s : Store).

Lemma driver_each_requests {X : Type} (request_of : X -> DriverCall) (xs : list X) s :
  driver_each w request_of xs s = send_requests w (map request_of xs) s.
Proof.
  unfold send_requests. revert s.
  induction xs as [|x xs IH]; intros s; cbn [driver_each map]; [done|].
  destruct (driver_do w (calls s) (request_of x)); [done|apply IH].
Qed.

Lemma send_requests_app (requests1 requests2 : list DriverCall) s :
  (do _ <- send_requests w requests1; send_requests w requests2) s
  = send_requests w (requests1 ++ requests2) s.
Proof.
  unfold send_requests, bind. revert s.
  induction requests1 as [|request requests1 IH]; intros s; cbn [driver_each app];
    [done|].
  destruct (driver_do w (calls s) request); [done|apply IH].
Qed.

Lemma accepts_all_nil history : accepts_all w history [].
Proof. intros before request after H. by destruct before. Qed.

Lemma accepts_all_cons history request requests :
  driver_do w history request = None ->
  accepts_all w (history ++ [request]) requests ->
  accepts_all w history (request :: requests).
Proof.
  intros Hfirst Hrest before request' after Hsplit.
  destruct before as [|request0 before]; cbn in Hsplit.
  - injection Hsplit as <- <-. by rewrite app_nil_r.
  - injection Hsplit as <- Hsplit.
    change (history ++ request :: before) with (history ++ [request] ++ before).
    rewrite app_assoc. by apply (Hrest before request' after).
Qed.

(** The loop sends its plan in order and stops at the first request
    the driver refuses. *)
Lemma send_requests_stops (plan : list DriverCall) s r s' :
  send_requests w plan s = (r, s') ->
  __insert_buffer s' = __insert_buffer s /\
  (r = Return tt \/ exists e, r = Raise (DriverException e)) /\
  exists sent,
    calls s' = calls s ++ sent /\
    stops_at_first_refusal w (calls s) plan sent r.
Proof.
  unfold send_requests. revert s.
  induction plan as [|request plan IH]; intros s; cbn [driver_each].
  - intros [= <- <-]. split; [done|]. split; [by left|].
    exists []. split; [by rewrite app_nil_r|].
    left. split; [done|]. split; [done|]. apply accepts_all_nil.
  - destruct (driver_do w (calls s) request) as [e|] eqn:Hdo.
    + intros [= <- <-]. split; [done|]. split; [right; by eexists|].
      exists [request]. split; [done|]. right. split; [done|].
      exists [], request, plan, e. split; [done|]. split; [done|].
      split; [apply accepts_all_nil|]. by rewrite app_nil_r.
    + intros H. apply IH in H as (Hb & Hr & sent & Hc & Hstop).
      split; [done|]. split; [done|]. exists (request :: sent). split.
      { rewrite Hc. cbn [log_call calls]. by rewrite <- app_assoc. }
      cbn [log_call calls] in Hstop.
      destruct Hstop as [(-> & -> & Hall)|(Hraise & before & refused & after & e
                                            & -> & -> & Hall & Hrefused)].
      * left. split; [done|]. split; [done|]. by apply accepts_all_cons.
      * right. split; [done|]. exists (request :: before), refused, after, e.
        split; [done|]. split; [done|]. split; [by apply accepts_all_cons|].
        change (calls s ++ request :: before) with (calls s ++ [request] ++ before).
        by rewrite app_assoc.
Qed.

Lemma stops_at_first_refusal_outcome history plan sent (r r' : Outcome unit) :
  (r = Return tt <-> r' = Return tt) ->
  stops_at_first_refusal w history plan sent r ->
  stops_at_first_refusal w history plan sent r'.
Proof.
  intros Hiff [(Hr & Hrest)|(Hr & Hrest)]; [left|right]; (split; [|done]).
  - by apply Hiff.
  - intros Hr'. by apply Hr, Hiff.
Qed.

#[local] Set Warnings "-clear-no-such-hyp".
(** What the scan of the desired policies returns, when it returns. *)
Lemma scan_retention_policies_return rp_dict rps add0 alter0 (default_used : bool)
    add alter :
  scan_retention_policies rp_dict rps add0 alter0 default_used = Return (add, alter) ->
  (forall rp, In rp add <-> In rp add0 \/ (In rp rps /\ rp_absent rp_dict rp)) /\
  (forall rp, In rp alter <-> In rp alter0 \/ (In rp rps /\ rp_differs rp_dict rp)).
Proof.
  revert add0 alter0 default_used.
  induction rps as [|rp0 rps IH]; intros add0 alter0 default_used;
    cbn [scan_retention_policies].
  - intros [= <- <-]. split; intros rp; cbn; tauto.
  - destruct (rp_default rp0 && default_used); [done|].
    destruct (rp_dict !! rp_name rp0) as [result_rp|] eqn:Hlook;
      [destruct (decide (result_rp = to_dict rp0)) as [Heq|Hne]|];
      intros H; apply IH in H as [Hadd Halter]; split; intros rp;
      rewrite ?Hadd, ?Halter, ?in_app_iff; cbn [In];
      unfold rp_absent, rp_differs; naive_solver.
Qed.
#[local] Set Warnings "+clear-no-such-hyp".

(** The requests of [check_create_rp] after a scan that returned. *)
Lemma check_create_rp_requests self s results add alter r s' :
  driver_list_rp w (calls s) (get_list_retention_policies (db_name (database self)))
    = inr results ->
  scan_retention_policies (make_rp_dict results) (retention_policies (database self))
    [] [] false = Return (add, alter) ->
  check_create_rp w self s = (r, s') ->
  (r = Return tt \/ r = Raise (ValueError "Retention Policies check failed")) /\
  __insert_buffer s' = __insert_buffer s /\
  exists sent,
    calls s' = calls s ++ get_list_retention_policies (db_name (database self)) :: sent /\
    stops_at_first_refusal w
      (calls s ++ [get_list_retention_policies (db_name (database self))])
      (map create_retention_policy add ++ map alter_retention_policy alter) sent r.
Proof.
  intros Hlist Hscan. unfold check_create_rp, check_create_rp_body.
  rewrite Hlist, Hscan.
  assert (forall s1,
            (do _ <- driver_each w create_retention_policy add;
             driver_each w alter_retention_policy alter) s1
            = send_requests w
                (map create_retention_policy add ++ map alter_retention_policy alter) s1)
    as ->.
  { intros s1. rewrite <- send_requests_app. unfold bind.
    rewrite driver_each_requests.
    destruct (send_requests w _ s1) as [[[]|e] s2]; [apply driver_each_requests|done]. }
  destruct (send_requests w _ _) as [r0 s0] eqn:Hrun.
  apply send_requests_stops in Hrun as (Hb & Hr & sent & Hc & Hstop).
  cbn [log_call calls __insert_buffer] in Hb, Hc, Hstop.
  destruct Hr as [-> | [e ->]]; intros [= <- <-].
  - split; [by left|]. split; [done|]. exists sent.
    split; [by rewrite Hc, <- app_assoc|done].
  - split; [by right|]. split; [done|]. exists sent.
    split; [by rewrite Hc, <- app_assoc|].
    eapply stops_at_first_refusal_outcome; [|exact Hstop]. by split.
Qed.

(** The requests of [check_create_cq] after an answered listing. *)
Lemma check_create_cq_requests self s results add alter r s' :
  driver_list_cq w (calls s) get_list_continuous_queries = inr results ->
  scan_continuous_queries (server_cq_dict self results)
    (continuous_queries (database self)) [] [] = (add, alter) ->
  check_create_cq w self s = (r, s') ->
  (r = Return tt \/ r = Raise (ValueError "Continuous Query check failed")) /\
  __insert_buffer s' = __insert_buffer s /\
  exists sent,
    calls s' = calls s ++ get_list_continuous_queries :: sent /\
    stops_at_first_refusal w (calls s ++ [get_list_continuous_queries])
      (map drop_request alter ++ map create_continuous_query (add ++ alter)) sent r.
Proof.
  intros Hlist Hscan. unfold check_create_cq, check_create_cq_body.
  rewrite Hlist. fold (server_cq_dict self results). rewrite Hscan.
  assert (forall s1,
            (do _ <- driver_each w drop_request alter;
             driver_each w create_continuous_query (add ++ alter)) s1
            = send_requests w
                (map drop_request alter ++ map create_continuous_query (add ++ alter)) s1)
    as ->.
  { intros s1. rewrite <- send_requests_app. unfold bind.
    rewrite driver_each_requests.
    destruct (send_requests w _ s1) as [[[]|e] s2]; [apply driver_each_requests|done]. }
  destruct (send_requests w _ _) as [r0 s0] eqn:Hrun.
  apply send_requests_stops in Hrun as (Hb & Hr & sent & Hc & Hstop).
  cbn [log_call calls __insert_buffer] in Hb, Hc, Hstop.
  destruct Hr as [-> | [e ->]]; intros [= <- <-].
  - split; [by left|]. split; [done|]. exists sent.
    split; [by rewrite Hc, <- app_assoc|done].
  - split; [by right|]. split; [done|]. exists sent.
    split; [by rewrite Hc, <- app_assoc|].
    eapply stops_at_first_refusal_outcome; [|exact Hstop]. by split.
Qed.
End Refusals.

(** Whatever the server answers, [check_create_rp] and
    [check_create_cq] either return or raise their own [ValueError], and
    leave the insert buffer as it is.  Their first request is the
    listing; when it is not answered, or when [check_create_rp] finds a
    second default policy, it is their only request and they raise.
    Otherwise their plan is: for [check_create_rp], one create per
    desired policy the listing lacks, then one alter per desired policy
    it describes otherwise; for [check_create_cq], one drop per desired
    query listed with another text, then one create per desired query
    that is absent or was dropped.  They send the plan in order and
    stop at the first request the driver refuses: they return exactly
    when the whole plan was sent and accepted, and when they raise, the
    last request sent is the refused one, every request before it was
    accepted and nothing after it was sent. *)
Theorem reconciliation_outcomes (w : World) (self : InfluxClient) (s : Store) :
  (forall r s',
     check_create_rp w self s = (r, s') ->
     let listing := get_list_retention_policies (db_name (database self)) in
     let desired := retention_policies (database self) in
     (r = Return tt \/ r = Raise (ValueError "Retention Policies check failed")) /\
     __insert_buffer s' = __insert_buffer s /\
     (forall e, driver_list_rp w (calls s) listing = inl e ->
        r <> Return tt /\ calls s' = calls s ++ [listing]) /\
     (forall results e,
        driver_list_rp w (calls s) listing = inr results ->
        scan_retention_policies (make_rp_dict results) desired [] [] false = Raise e ->
        r <> Return tt /\ calls s' = calls s ++ [listing]) /\
     (forall results add alter,
        driver_list_rp w (calls s) listing = inr results ->
        scan_retention_policies (make_rp_dict results) desired [] [] false
          = Return (add, alter) ->
        (forall rp, In rp add <-> In rp desired /\ rp_absent (make_rp_dict results) rp) /\
        (forall rp, In rp alter <-> In rp desired /\ rp_differs (make_rp_dict results) rp) /\
        exists sent,
          calls s' = calls s ++ listing :: sent /\
          stops_at_first_refusal w (calls s ++ [listing])
            (map create_retention_policy add ++ map alter_retention_policy alter)
            sent r)) /\
  (forall r s',
     check_create_cq w self s = (r, s') ->
     let listing := get_list_continuous_queries in
     let desired := continuous_queries (database self) in
     (r = Return tt \/ r = Raise (ValueError "Continuous Query check failed")) /\
     __insert_buffer s' = __insert_buffer s /\
     (forall e, driver_list_cq w (calls s) listing = inl e ->
        r <> Return tt /\ calls s' = calls s ++ [listing]) /\
     (forall results,
        driver_list_cq w (calls s) listing = inr results ->
        exists add alter,
          (forall cq, In cq add <-> In cq desired /\ cq_absent (server_cq_dict self results) cq) /\
          (forall cq, In cq alter <-> In cq desired /\ cq_differs (server_cq_dict self results) cq) /\
          exists sent,
            calls s' = calls s ++ listing :: sent /\
            stops_at_first_refusal w (calls s ++ [listing])
              (map drop_request alter ++ map create_continuous_query (add ++ alter))
              sent r)).
Proof.
  split; intros r s' Hrun listing desired.
  - assert ((r = Return tt \/ r = Raise (ValueError "Retention Policies check failed")) /\
            __insert_buffer s' = __insert_buffer s /\
            (forall results,
               driver_list_rp w (calls s) listing = inr results ->
               (exists add alter,
                  scan_retention_policies (make_rp_dict results) desired [] [] false
                  = Return (add, alter)) \/
               (r <> Return tt /\ calls s' = calls s ++ [listing])) /\
            (forall e, driver_list_rp w (calls s) listing = inl e ->
               r <> Return tt /\ calls s' = calls s ++ [listing])) as (Hr & Hb & Hscan & Hfail).
    { pose proof Hrun as Hrun'. revert Hrun'.
      unfold check_create_rp, check_create_rp_body. fold listing. fold desired.
      destruct (driver_list_rp w (calls s) listing) as [e|results] eqn:Hlist.
      { intros [= <- <-]. split; [by right|]. split; [done|]. split; [done|].
        intros e' _. by split. }
      destruct (scan_retention_policies _ _ _ _ _) as [[add alter]|e] eqn:Hs.
      - intros _.
        destruct (check_create_rp_requests w self s results add alter r s')
          as (Hr & Hb & _); try done.
        split; [done|]. split; [done|]. split; [|done].
        intros results' [= <-]. left. by exists add, alter.
      - intros H.
        assert (r = Raise (ValueError "Retention Policies check failed") /\
                s' = log_call listing s) as [-> ->]
          by (destruct e; by injection H as <- <-).
        split; [by right|]. split; [done|]. split; [|done].
        intros results' [= <-]. right. by split. }
    split; [done|]. split; [done|]. split; [done|]. split.
    + intros results e Hlist Hs.
      destruct (Hscan results Hlist) as [(add & alter & Hs')|]; [congruence|done].
    + intros results add alter Hlist Hs.
      destruct (scan_retention_policies_return _ _ _ _ _ _ _ Hs) as [Hadd Halter].
      split; [intros rp; rewrite Hadd; cbn; tauto|].
      split; [intros rp; rewrite Halter; cbn; tauto|].
      by destruct (check_create_rp_requests w self s results add alter r s')
        as (_ & _ & Hsent).
  - assert ((r = Return tt \/ r = Raise (ValueError "Continuous Query check failed")) /\
            __insert_buffer s' = __insert_buffer s /\
            (forall e, driver_list_cq w (calls s) listing = inl e ->
               r <> Return tt /\ calls s' = calls s ++ [listing])) as (Hr & Hb & Hfail).
    { pose proof Hrun as Hrun'. revert Hrun'.
      unfold check_create_cq, check_create_cq_body. fold listing.
      destruct (driver_list_cq w (calls s) listing) as [e|results] eqn:Hlist.
      { intros [= <- <-]. split; [by right|]. split; [done|]. intros e' _. by split. }
      intros _.
      destruct (scan_continuous_queries (server_cq_dict self results) desired [] [])
        as [add alter] eqn:Hs.
      destruct (check_create_cq_requests w self s results add alter r s')
        as (Hr & Hb & _); try done. }
    split; [done|]. split; [done|]. split; [done|].
    intros results Hlist.
    destruct (scan_continuous_queries (server_cq_dict self results) desired [] [])
      as [add alter] eqn:Hs.
    exists add, alter.
    destruct (scan_continuous_queries_spec _ _ _ _ _ _ Hs) as [Hadd Halter].
    split; [intros cq; rewrite Hadd; cbn; tauto|].
    split; [intros cq; rewrite Halter; cbn; tauto|].
    by destruct (check_create_cq_requests w self s results add alter r s')
      as (_ & _ & Hsent).
Qed.

Lemma reconciliation_outcomes_witness :
  check_create_rp Demo2.refusing_alter Demo2.three_rps Demo.fresh
  = (Raise (ValueError "Retention Policies check failed"),
     {| __insert_buffer := [];
        calls := [get_list_retention_policies "sppmon";
                  create_retention_policy (Demo.policy "rp_new" false);
                  alter_retention_policy (Demo.policy "rp_changed" false)] |}) /\
  exists sent,
    stops_at_first_refusal Demo2.refusing_alter [get_list_retention_policies "sppmon"]
      [create_retention_policy (Demo.policy "rp_new" false);
       alter_retention_policy (Demo.policy "rp_changed" false)]
      sent (Raise (ValueError "Retention Policies check failed")) /\
    sent = [create_retention_policy (Demo.policy "rp_new" false);
            alter_retention_policy (Demo.policy "rp_changed" false)].
Proof.
  split; [reflexivity|].
  destruct (reconciliation_outcomes Demo2.refusing_alter Demo2.three_rps Demo.fresh)
    as [Hrp _].
  destruct (Hrp _ _ eq_refl) as (_ & _ & _ & _ & Hplan).
  destruct (Hplan _ [Demo.policy "rp_new" false] [Demo.policy "rp_changed" false]
              eq_refl eq_refl) as (_ & _ & sent & Hcalls & Hstop).
  exists sent. split; [exact Hstop|].
  cbn in Hcalls. by injection Hcalls as <-.
Defined.

(** Reconciliation against a server that already has the desired state
    sends the listing and nothing else, so it returns even when the
    server would refuse every other request: for retention policies
    when at most one is declared default and the server describes each
    as declared, for continuous queries when the server reports each
    with its rendered text. *)
Theorem reconciliation_in_sync (w : World) (self : InfluxClient) (s : Store) :
  (forall results,
     driver_list_rp w (calls s) (get_list_retention_policies (db_name (database self)))
       = inr results ->
     (count_default (retention_policies (database self)) <= 1)%nat ->
     (forall rp, In rp (retention_policies (database self)) ->
                 rp_same (make_rp_dict results) rp) ->
     check_create_rp w self s
     = (Return tt, log_call (get_list_retention_policies (db_name (database self))) s)) /\
  (forall results,
     driver_list_cq w (calls s) get_list_continuous_queries = inr results ->
     (forall cq, In cq (continuous_queries (database self)) ->
                 cq_same (server_cq_dict self results) cq) ->
     check_create_cq w self s = (Return tt, log_call get_list_continuous_queries s)).
Proof.
  split; intros results Hlist.
  - intros Hcount Hsame. unfold check_create_rp, check_create_rp_body.
    rewrite Hlist. by rewrite scan_retention_policies_same.
  - intros Hsame. unfold check_create_cq, check_create_cq_body.
    rewrite Hlist. fold (server_cq_dict self results).
    by rewrite scan_continuous_queries_same.
Qed.

Lemma reconciliation_in_sync_witness :
  check_create_rp Demo2.in_sync Demo2.three_rps Demo.fresh
  = (Return tt, {| __insert_buffer := []; calls := [get_list_retention_policies "sppmon"] |}) /\
  check_create_cq Demo2.in_sync Demo.three_cqs Demo.fresh
  = (Return tt, {| __insert_buffer := []; calls := [get_list_continuous_queries] |}).
Proof.
  destruct (reconciliation_in_sync Demo2.in_sync Demo2.three_rps Demo.fresh) as [Hrp _].
  destruct (reconciliation_in_sync Demo2.in_sync Demo.three_cqs Demo.fresh) as [_ Hcq].
  split.
  - apply (Hrp _ eq_refl); [vm_compute; lia|].
    intros rp [<-|[<-|[<-|[]]]]; vm_compute; reflexivity.
  - apply (Hcq _ eq_refl).
    intros cq [<-|[<-|[<-|[]]]]; vm_compute; reflexivity.
Defined.

(** ** [connect] *)

Section Connect.
Variable w : World.
Implicit Types (self : InfluxClient) (s : Store).


End Connect.



(** ** [send_selection_query], continued *)

Section MoreSelection.
Variable w : World.
Implicit Types (self : InfluxClient) (s : Store) (q : SelectionQuery).

Lemma dict_mem_keys {V} (k : Table) (d : list (Table * V)) :
  dict_mem k d = true <-> In k (keys d).
Proof.
  unfold dict_mem, keys. induction d as [|[k0 v0] d IH]; cbn; [split; [done|tauto]|].
  destruct (decide (k = k0)) as [->|Hne]; [split; auto|].
  rewrite IH. split; [auto|]. intros [?|?]; [congruence|done].
Qed.

(** The loop that fills [tables_count], from any start. *)
Lemma tables_count_fold (c : Z) (tables : list Table) (acc : list (Table * Z)) :
  let result :=
    foldl (fun tables_count table => dict_set table c tables_count) acc tables in
  (NoDup (keys acc) -> NoDup (keys result)) /\
  (forall table, In table (keys result) <-> In table (keys acc) \/ In table tables) /\
  (length result <= length acc + length tables)%nat.
Proof.
  revert acc. induction tables as [|table tables IH]; intros acc; cbn.
  - split; [done|]. split; [intros table; tauto|lia].
  - destruct (IH (dict_set table c acc)) as (Hnodup & Hin & Hlen).
    assert (keys (dict_set table c acc)
            = if dict_mem table acc then keys acc else keys acc ++ [table]) as Hkeys
      by apply keys_dict_set.
    split; [|split].
    + intros Hacc. apply Hnodup. rewrite Hkeys.
      destruct (dict_mem table acc) eqn:Hmem; [done|].
      apply NoDup_app. split; [done|]. split; [|apply NoDup_singleton].
      intros x Hx Hx'. apply list_elem_of_singleton in Hx' as ->.
      apply list_elem_of_In, dict_mem_keys in Hx. congruence.
    + intros x. rewrite Hin, Hkeys.
      destruct (dict_mem table acc) eqn:Hmem.
      * apply dict_mem_keys in Hmem. split; [tauto|].
        intros [?|[<-|?]]; tauto.
      * rewrite in_app_iff. cbn. tauto.
    + assert (length (dict_set table c acc) <= S (length acc))%nat.
      { apply (f_equal length) in Hkeys. unfold keys in Hkeys.
        rewrite length_map in Hkeys. rewrite Hkeys.
        destruct (dict_mem table acc); rewrite ?length_app, length_map; cbn; lia. }
      lia.
Qed.

Lemma total_count_constant (c : Z) (tables_count : list (Table * Z)) :
  Forall (fun item => item.2 = c) tables_count ->
  total_count tables_count = c * len tables_count.
Proof.
  unfold len. induction 1 as [|[table c'] tables_count Hc _ IH]; cbn [total_count foldr].
  - cbn. lia.
  - fold (total_count tables_count). rewrite IH. cbn in Hc. subst c'.
    cbn [length snd]. lia.
Qed.

(** The keys of [tables_count] are the tables in the order of their
    first mention. *)
Lemma tables_count_keys (c : Z) (tables : list Table) (acc : list (Table * Z)) :
  keys (foldl (fun tables_count table => dict_set table c tables_count) acc tables)
  = keys acc ++ filter (fun table => table ∉ keys acc) (first_mentions tables).
Proof.
  revert acc.
  induction tables as [|table tables IH]; intros acc; cbn [foldl first_mentions].
  - by rewrite filter_nil, app_nil_r.
  - rewrite IH, keys_dict_set. destruct (dict_mem table acc) eqn:Hmem.
    + apply dict_mem_keys, list_elem_of_In in Hmem.
      rewrite filter_cons_False by (intros H; by apply H).
      rewrite list_filter_filter. f_equal. apply list_filter_iff.
      intros x. split; [|by intros [? _]]. intros Hx. split; [done|]. by intros ->.
    + assert (table ∉ keys acc) as Hnot.
      { intros H. apply list_elem_of_In, dict_mem_keys in H. congruence. }
      rewrite filter_cons_True by done.
      rewrite list_filter_filter, <- app_assoc. cbn [app].
      do 2 f_equal. apply list_filter_iff. intros x.
      by rewrite not_elem_of_app, list_elem_of_singleton.
Qed.

Lemma tables_count_constant (c : Z) (tables_count : list (Table * Z)) :
  Forall (fun item => item.2 = c) tables_count ->
  tables_count = map (fun table => (table, c)) (keys tables_count).
Proof.
  induction 1 as [|[table c'] tables_count Hc _ IH]; [done|].
  cbn in Hc. subst c'. cbn [keys map fst]. f_equal. exact IH.
Qed.

(** [tables_count] in closed form. *)
Lemma selection_tables_count_closed (tables : list Table) (length : Z) :
  selection_tables_count tables length
  = map (fun table => (table, length / len tables)) (first_mentions tables).
Proof.
  destruct (selection_tables_count_spec tables length) as [Hcount _].
  rewrite (tables_count_constant _ _ Hcount) at 1. f_equal.
  unfold selection_tables_count. rewrite tables_count_keys. cbn [keys map app].
  induction (first_mentions tables) as [|table rest IH]; [done|].
  rewrite filter_cons_True by apply not_elem_of_nil. by f_equal.
Qed.

(** With a table key in the buffer, a selection that returns has sent
    every batch and then the query. *)
Lemma send_selection_query_buffered self q s result s' :
  (exists table, In table (sq_tables q) /\
                 is_Some (dict_get table (__insert_buffer s))) ->
  send_selection_query w self q s = (Return result, s') ->
  calls s' = calls s ++ flush_requests self (snapshot w (__insert_buffer s))
               ++ [query_request self q].
Proof.
  intros Hbuf.
  assert (__insert_buffer s <> []) as Hne.
  { destruct Hbuf as (table & _ & [v Hv]). by destruct (__insert_buffer s). }
  apply buffered_table_iff in Hbuf.
  unfold send_selection_query. rewrite Hbuf. unfold bind.
  destruct (flush_insert_buffer w self s) as [[[]|e] s1] eqn:Hf; [|done].
  rewrite flush_nonempty in Hf by done.
  apply send_insert_list_return in Hf as ->.
  intros H. pose proof (send_query_calls w self q
    (flushed w self (snapshot w (__insert_buffer s)) (set_buffer [] s))) as Hc.
  rewrite H in Hc. cbn [snd] in Hc. rewrite Hc.
  cbn [flushed calls set_buffer]. by rewrite <- app_assoc.
Qed.
End MoreSelection.

(** The item counts [send_selection_query] records for a result of
    [length] rows, [length] below 2^53 (where the quotient of the float
    division [length/len(query.tables)], truncated by [int], is the
    integer quotient): one entry per distinct queried table, in the
    order of first mention, each with the count [length / len(tables)]
    rounded down, duplicates counting in the divisor; the recorded
    counts never add up to more than [length]. *)
Theorem selection_counts_bounded (tables : list Table) (length : Z) :
  0 <= length < 2 ^ 53 ->
  let tables_count := selection_tables_count tables length in
  tables_count
  = map (fun table => (table, length / len tables)) (first_mentions tables) /\
  NoDup (first_mentions tables) /\
  (forall table, In table (first_mentions tables) <-> In table tables) /\
  0 <= total_count tables_count <= length.
Proof.
  intros [Hlength _] tables_count.
  destruct (tables_count_fold (length / len tables) tables []) as (Hnodup & Hin & Hlen).
  destruct (selection_tables_count_spec tables length) as [Hcount _].
  pose proof (selection_tables_count_closed tables length) as Hclosed.
  fold tables_count in Hcount, Hclosed. unfold selection_tables_count in tables_count.
  fold tables_count in Hnodup, Hin, Hlen.
  assert (keys tables_count = first_mentions tables) as Hkeys.
  { rewrite Hclosed. unfold keys. rewrite map_map. cbn. apply map_id. }
  rewrite Hkeys in Hnodup, Hin.
  split; [done|]. split; [apply Hnodup, NoDup_nil_2|].
  split; [intros table; rewrite Hin; cbn; tauto|].
  rewrite (total_count_constant _ _ Hcount).
  cbn in Hlen. unfold len in *.
  destruct tables as [|table tables].
  - destruct tables_count; cbn in *; [lia|lia].
  - set (n := Z.of_nat (List.length (table :: tables))) in *.
    assert (0 < n) by (unfold n; cbn; lia).
    assert (0 <= length / n) by (apply Z.div_pos; lia).
    assert (n * (length / n) <= length) by (apply Z.mul_div_le; lia).
    assert (Z.of_nat (List.length tables_count) <= n) by (unfold n; lia).
    nia.
Qed.

Lemma selection_counts_bounded_witness :
  selection_tables_count
    [Demo.table_of "A"; Demo.table_of "B"; Demo.table_of "A"] 7
  = [(Demo.table_of "A", 2); (Demo.table_of "B", 2)] /\
  first_mentions [Demo.table_of "A"; Demo.table_of "B"; Demo.table_of "A"]
  = [Demo.table_of "A"; Demo.table_of "B"] /\
  0 <= total_count
         (selection_tables_count
            [Demo.table_of "A"; Demo.table_of "B"; Demo.table_of "A"] 7) <= 7.
Proof.
  destruct (selection_counts_bounded
              [Demo.table_of "A"; Demo.table_of "B"; Demo.table_of "A"] 7)
    as (Hclosed & _ & _ & Hsum); [lia|].
  split; [exact Hclosed|]. split; [reflexivity|exact Hsum].
Defined.

(** When no queried table is a key of the buffer, the driver answers
    the query with fewer than 2^53 rows, the query names a table and the
    measured duration is positive, [send_selection_query] returns the
    driver's result as it is after this single request and appends one
    metrics record per distinct table of the query, in the order of
    first mention: the query's keyword, the table's name, the number of
    rows of the first series divided by the number of tables as item
    count, the duration computed for that count with batch size 1, and
    a clock reading of its own, the record number [n] carrying the
    reading number [n] taken after the query. *)
Theorem selection_query_returns_result (w : World) (self : InfluxClient)
    (q : SelectionQuery) (s : Store) (result : ResultSet) :
  (forall table, In table (sq_tables q) -> dict_get table (__insert_buffer s) = None) ->
  driver_query w (calls s) (query_request self q) = inr result ->
  sq_tables q <> [] ->
  (0 < perf_elapsed w (calls s))%Q ->
  result_length result < 2 ^ 53 ->
  let s1 := log_call (query_request self q) s in
  let count := result_length result / len (sq_tables q) in
  exists records,
    send_selection_query w self q s
    = (Return result,
       set_buffer (with_metrics self records (__insert_buffer s)) s1) /\
    length records = length (first_mentions (sq_tables q)) /\
    forall (n : nat) table,
      first_mentions (sq_tables q) !! n = Some table ->
      records !! n
      = Some {| iq_table := __metrics_table self;
                iq_fields :=
                  [("duration_ms",
                    VFloat (duration_ms (perf_elapsed w (calls s)) count 1));
                   ("item_count", VInt count)];
                iq_tags := [("keyword", VKeyword (sq_keyword q));
                            ("tableName", VStr (table_name table))];
                iq_time_stamp := get_actual_time_sec w (calls s1) n |}.
Proof.
  intros Hnone Hq Htables Hpos _ s1 count.
  destruct (selection_tables_count_spec (sq_tables q) (result_length result))
    as [_ Hne].
  pose proof (selection_tables_count_closed (sq_tables q) (result_length result))
    as Hclosed. fold count in Hclosed.
  exists (querys w self (sq_keyword q)
            (selection_tables_count (sq_tables q) (result_length result))
            (perf_elapsed w (calls s)) 1 (calls s1)).
  split; [|split].
  - rewrite send_selection_query_unbuffered by done.
    unfold send_query. fold (query_request self q). rewrite Hq.
    unfold bind, ret. fold s1.
    rewrite insert_metrics_ok; auto. lia.
  - by rewrite querys_length, Hclosed, length_map.
  - intros n table Hn. apply querys_lookup.
    by rewrite Hclosed, list_lookup_fmap, Hn.
Qed.

Lemma selection_query_returns_result_witness :
  exists d,
    send_selection_query Demo2.answering Demo.client Demo2.select_ab Demo.fresh
    = (Return [[[VInt 1]; [VInt 2]]],
       {| __insert_buffer :=
            [(__metrics_table Demo.client,
              [{| iq_table := __metrics_table Demo.client;
                  iq_fields := [("duration_ms", VFloat d); ("item_count", VInt 1)];
                  iq_tags := [("keyword", VKeyword SELECT); ("tableName", VStr "A")];
                  iq_time_stamp := 0 |};
               {| iq_table := __metrics_table Demo.client;
                  iq_fields := [("duration_ms", VFloat d); ("item_count", VInt 1)];
                  iq_tags := [("keyword", VKeyword SELECT); ("tableName", VStr "B")];
                  iq_time_stamp := 1 |}])];
          calls := [query_request Demo.client Demo2.select_ab] |}) /\
    (d == 1000)%Q.
Proof.
  destruct (selection_query_returns_result Demo2.answering Demo.client Demo2.select_ab
              Demo.fresh [[[VInt 1]; [VInt 2]]]) as (records & Hrun & _);
    [done|reflexivity|discriminate|reflexivity|reflexivity|].
  eexists. split; [reflexivity|reflexivity].
Defined.

(** ** Ingestion followed by a selection *)

(** Read your writes, at the level of requests: after an ingestion for
    a table (below the safeguard), a selection on that table that
    returns has first sent a batch with every pending record of the
    table, the ingested ones included, and has sent the query last. *)
Theorem ingest_then_select_sends_rows_first (w : World) (self : InfluxClient)
    (table_name : string) (rows : list Row) (q : SelectionQuery) (s : Store)
    (result : ResultSet) (s' : Store) :
  table_name <> "" -> rows <> [] ->
  let table := db_getitem (database self) table_name in
  let records := default [] (dict_get table (__insert_buffer s))
                   ++ omap (make_insert_query w table) rows in
  len records <= 5 * 10000 ->
  In table (sq_tables q) ->
  (do _ <- insert_dicts_to_buffer w self table_name (Some rows);
   send_selection_query w self q) s = (Return result, s') ->
  exists before after,
    calls s' = calls s ++ before
                 ++ write_request self table (map (to_query w) records) :: after
                 ++ [query_request self q] /\
    Forall (is_write_request self) (before ++ after).
Proof.
  intros Hname Hrows table records Hlen Hin. unfold bind.
  rewrite insert_dicts_unfold by done.
  pose proof (appended_lookup w self table_name rows s) as Hlook.
  cbn zeta in Hlook. fold table in Hlook. fold records in Hlook.
  unfold pending. fold table. rewrite Hlook. cbn [default from_option id].
  destruct (_ >? _) eqn:E.
  { apply Z.gtb_lt in E. change __query_max_batch_size with 10000 in E. lia. }
  intros H. apply send_selection_query_buffered in H.
  2:{ exists table. split; [done|]. by eexists. }
  rewrite appended_calls in H. rewrite H.
  apply dict_get_In in Hlook.
  apply (in_map (fun item => write_request self item.1 (map (to_query w) item.2)))
    in Hlook. cbn [fst snd] in Hlook.
  assert (flush_requests self
            (snapshot w (__insert_buffer (appended w self table_name rows s)))
          = map (fun item => write_request self item.1 (map (to_query w) item.2))
              (__insert_buffer (appended w self table_name rows s))) as Hreq.
  { unfold flush_requests, snapshot. by rewrite map_map. }
  apply in_split in Hlook as (before & after & Hsplit).
  exists before, after. split.
  - rewrite Hreq, Hsplit. by rewrite <- !app_assoc.
  - pose proof (flush_requests_are_writes self
      (snapshot w (__insert_buffer (appended w self table_name rows s)))) as Hall.
    rewrite Hreq, Hsplit in Hall.
    apply Forall_app in Hall as [Hb Ha]. apply Forall_cons in Ha as [_ Ha].
    by apply Forall_app.
Qed.

Lemma ingest_then_select_sends_rows_first_witness :
  calls ((do _ <- insert_dicts_to_buffer Demo.calm Demo.client "A" (Some [Demo.row]);
          send_selection_query Demo.calm Demo.client Demo.select_a) Demo.two_tables).2
  = [write_request Demo.client (Demo.table_of "A") ["A"; "A"];
     write_request Demo.client (Demo.table_of "B") ["B"];
     query_request Demo.client Demo.select_a].
Proof.
  destruct (ingest_then_select_sends_rows_first Demo.calm Demo.client "A" [Demo.row]
              Demo.select_a Demo.two_tables []
              ((do _ <- insert_dicts_to_buffer Demo.calm Demo.client "A" (Some [Demo.row]);
                send_selection_query Demo.calm Demo.client Demo.select_a)
                 Demo.two_tables).2)
    as (before & after & Hcalls & _);
    [done|discriminate|vm_compute; discriminate|by left|reflexivity|].
  reflexivity.
Defined.

(** ** [update_row] *)

Section UpdateRow.
Implicit Types (row : Row) (key : string) (value : Value).

Lemma row_get_set_eq key value row : row_get key (row_set key value row) = Some value.
Proof.
  induction row as [|[key' value'] row IH]; cbn.
  - by rewrite decide_True.
  - destruct (decide (key = key')) as [->|Hne]; cbn.
    + by rewrite decide_True.
    + by rewrite decide_False.
Qed.

Lemma row_get_set_ne key key' value row :
  key <> key' -> row_get key' (row_set key value row) = row_get key' row.
Proof.
  intros Hne. induction row as [|[key0 value0] row IH]; cbn.
  - by rewrite decide_False by done.
  - destruct (decide (key = key0)) as [->|Hk]; cbn.
    + by rewrite !decide_False by done.
    + destruct (decide (key' = key0)); [done|apply IH].
Qed.

(** Columns the dictionary does not name are kept. *)
Lemma row_update_other (dic : list (string * Value)) key row :
  ~ In key (map fst dic) -> row_get key (row_update dic row) = row_get key row.
Proof.
  unfold row_update. revert row.
  induction dic as [|[key0 value0] dic IH]; intros row Hnot; [done|].
  cbn in *. rewrite IH by tauto. apply row_get_set_ne. tauto.
Qed.

(** Columns it names take its value. *)
Lemma row_update_named (dic : list (string * Value)) key value row :
  NoDup (map fst dic) -> In (key, value) dic ->
  row_get key (row_update dic row) = Some value.
Proof.
  unfold row_update. revert row.
  induction dic as [|[key0 value0] dic IH]; intros row Hnodup Hin; [done|].
  cbn in Hnodup. apply NoDup_cons in Hnodup as [Hfresh Hnodup].
  destruct Hin as [[= -> ->]|Hin].
  - cbn. fold (row_update dic (row_set key value row)).
    rewrite row_update_other; [apply row_get_set_eq|].
    intros Hk. by apply Hfresh, list_elem_of_In.
  - cbn. by apply IH.
Qed.

Lemma updated_row_unfold tag_dic field_dic row :
  updated_row tag_dic field_dic row
  = row_update (default [] field_dic)
      (row_update (map (fun item => (item.1, VStr item.2)) (default [] tag_dic)) row).
Proof.
  unfold updated_row.
  destruct tag_dic as [[|tag tags]|], field_dic as [[|field fields]|]; done.
Qed.
End UpdateRow.

(** The row [update_row] writes back for a selected row: every column
    named in [field_dic] holds the new field value; every column named
    in [tag_dic] and not in [field_dic] holds the new tag; every other
    column holds what was selected. *)
Theorem update_row_overwrites_columns (tag_dic : option (list (string * string)))
    (field_dic : option (list (string * Value))) (row : Row) :
  NoDup (map fst (default [] tag_dic)) ->
  NoDup (map fst (default [] field_dic)) ->
  let row' := updated_row tag_dic field_dic row in
  (forall key value,
     In (key, value) (default [] field_dic) -> row_get key row' = Some value) /\
  (forall key value,
     In (key, value) (default [] tag_dic) ->
     ~ In key (map fst (default [] field_dic)) ->
     row_get key row' = Some (VStr value)) /\
  (forall key,
     ~ In key (map fst (default [] tag_dic)) ->
     ~ In key (map fst (default [] field_dic)) ->
     row_get key row' = row_get key row).
Proof.
  intros Htags Hfields row'. unfold row'. rewrite updated_row_unfold.
  set (tags := default [] tag_dic) in *. set (fields := default [] field_dic) in *.
  repeat split.
  - intros key value Hin. by apply row_update_named.
  - intros key value Hin Hnot. rewrite row_update_other by done.
    apply row_update_named.
    + by rewrite map_map.
    + by apply (in_map (fun item : string * string => (item.1, VStr item.2))) in Hin.
  - intros key Hnot_tag Hnot_field. rewrite !row_update_other; try done.
    by rewrite map_map.
Qed.

Lemma update_row_overwrites_columns_witness :
  updated_row (Some [("host", "b")]) (Some [("cpu", VInt 9)])
    [("host", VStr "a"); ("cpu", VInt 1); ("time", VInt 5)]
  = [("host", VStr "b"); ("cpu", VInt 9); ("time", VInt 5)] /\
  row_get "cpu"
    (updated_row (Some [("host", "b")]) (Some [("cpu", VInt 9)])
       [("host", VStr "a"); ("cpu", VInt 1); ("time", VInt 5)]) = Some (VInt 9).
Proof.
  destruct (update_row_overwrites_columns (Some [("host", "b")]) (Some [("cpu", VInt 9)])
              [("host", VStr "a"); ("cpu", VInt 1); ("time", VInt 5)])
    as (Hfield & _ & _).
  - apply NoDup_singleton.
  - apply NoDup_singleton.
  - split; [reflexivity|]. apply Hfield. by left.
Defined.

Section UpdateRowRequests.
Variable w : World.
Implicit Types (self : InfluxClient) (s : Store) (q : SelectionQuery).

(** Metrics go under the metrics table: every other entry is kept. *)
Lemma with_metrics_other self records buffer other :
  other <> __metrics_table self ->
  dict_get other (with_metrics self records buffer) = dict_get other buffer.
Proof.
  intros Hne. destruct records as [|record records]; [done|].
  cbn [with_metrics]. apply dict_get_set_ne. congruence.
Qed.

(** A query that meets no transport error returns and records its
    tables. *)
Lemma send_query_returns self q s :
  driver_query w (calls s) (query_request self q) <> inl ConnectionError ->
  sq_tables q <> [] ->
  (0 < perf_elapsed w (calls s))%Q ->
  exists result records,
    send_query w self q s
    = (Return result,
       {| __insert_buffer := with_metrics self records (__insert_buffer s);
          calls := calls s ++ [query_request self q] |}) /\
    (forall answer,
       driver_query w (calls s) (query_request self q) = inr answer ->
       result = answer).
Proof.
  intros Hconn Htables Hpos. unfold send_query. fold (query_request self q).
  destruct (driver_query w (calls s) (query_request self q)) as [[| |]|answer];
    [| |done|]; unfold bind, ret;
    (rewrite insert_metrics_ok;
     [|by apply selection_tables_count_spec|done|lia]);
    eexists _, _; (split; [reflexivity|]); by intros answer' [= <-].
Qed.
End UpdateRowRequests.

(** [update_row] with new tags deletes on the server before the
    rewritten rows are written.  For a table that is not a key of the
    buffer and is not the metrics table: when the [SELECT] is answered
    with points, the [DELETE] meets no transport error, the measured
    durations are positive and the rewritten rows that classify number
    at most 5 x 10000, [update_row] returns after two requests, the
    [SELECT] and then the [DELETE] with the same filter, and the
    rewritten rows are pending in the insert buffer: no [write_points]
    request has been made for them. *)
Theorem update_row_deletes_before_writing (w : World) (tools : QueryTools)
    (self : InfluxClient) (table_name : string) (tag_dic : list (string * string))
    (field_dic : option (list (string * Value))) (where_str : option string)
    (s : Store) (result : ResultSet) :
  let table := db_getitem (database self) table_name in
  let select := row_query tools SELECT (Some ["*"]) table where_str in
  let delete := row_query tools DELETE None table where_str in
  let rows := map (updated_row (Some tag_dic) field_dic) (get_points tools result) in
  table_name <> "" ->
  tag_dic <> [] ->
  table <> __metrics_table self ->
  dict_get table (__insert_buffer s) = None ->
  positive_durations w ->
  driver_query w (calls s) (query_request self select) = inr result ->
  get_points tools result <> [] ->
  driver_query w (calls s ++ [query_request self select]) (query_request self delete)
    <> inl ConnectionError ->
  len (omap (make_insert_query w table) rows) <= 5 * 10000 ->
  exists s',
    update_row w tools self table_name (Some tag_dic) field_dic where_str s
    = (Return tt, s') /\
    calls s' = calls s ++ [query_request self select; query_request self delete] /\
    dict_get table (__insert_buffer s')
    = Some (omap (make_insert_query w table) rows).
Proof.
  intros table select delete rows Hname Htags Hmt Hfresh Hpos Hselect Hpoints
    Hdelete Hlen.
  destruct (send_query_returns w self select s) as (result1 & records1 & Hrun1 & Hres1);
    [by rewrite Hselect|done|apply Hpos|].
  rewrite (Hres1 _ Hselect) in Hrun1. clear Hres1.
  set (s1 := {| __insert_buffer := with_metrics self records1 (__insert_buffer s);
                calls := calls s ++ [query_request self select] |}) in *.
  assert (dict_get table (__insert_buffer s1) = None) as Hfresh1.
  { unfold s1. cbn [__insert_buffer]. by rewrite with_metrics_other. }
  destruct (send_query_returns w self delete s1) as (result2 & records2 & Hrun2 & _);
    [done|done|apply Hpos|].
  set (s2 := {| __insert_buffer := with_metrics self records2 (__insert_buffer s1);
                calls := calls s1 ++ [query_request self delete] |}) in *.
  assert (dict_get table (__insert_buffer s2) = None) as Hfresh2.
  { unfold s2. cbn [__insert_buffer]. by rewrite with_metrics_other. }
  exists (appended w self table_name rows s2).
  assert (rows <> []) as Hrows.
  { unfold rows. by destruct (get_points tools result). }
  assert (update_row w tools self table_name (Some tag_dic) field_dic where_str s
          = (Return tt, appended w self table_name rows s2)) as Hrun.
  { unfold update_row. rewrite decide_False by done.
    assert (falsy (Some tag_dic) = false) as Hfalsy by (by destruct tag_dic).
    rewrite Hfalsy. cbn [andb]. fold table. unfold bind at 1.
    fold select. rewrite send_selection_query_unbuffered
      by (intros t [<-|[]]; exact Hfresh).
    rewrite Hrun1.
    destruct (get_points tools result) as [|point points] eqn:Hp; [done|].
    unfold bind. fold delete.
    rewrite send_selection_query_unbuffered by (intros t [<-|[]]; exact Hfresh1).
    rewrite Hrun2. fold rows.
    rewrite insert_dicts_unfold by done.
    pose proof (appended_lookup w self table_name rows s2) as Hlook.
    cbn zeta in Hlook. fold table in Hlook. rewrite Hfresh2 in Hlook.
    unfold pending. fold table. rewrite Hlook. cbn [default app].
    destruct (_ >? _) eqn:E; [|done].
    apply Z.gtb_lt in E. change __query_max_batch_size with 10000 in E.
    unfold id in E. lia. }
  split; [exact Hrun|]. split.
  - cbn [appended set_buffer calls s2 s1]. by rewrite <- app_assoc.
  - pose proof (appended_lookup w self table_name rows s2) as Hlook.
    cbn zeta in Hlook. fold table in Hlook. by rewrite Hfresh2 in Hlook.
Qed.

Lemma update_row_deletes_before_writing_witness :
  exists metrics,
    update_row Demo2.answering Demo2.tools Demo.client "A" (Some [("tag", "new")]) None
      None Demo.fresh
    = (Return tt,
       {| __insert_buffer :=
            [(__metrics_table Demo.client, metrics);
             (Demo.table_of "A",
              [{| iq_table := Demo.table_of "A";
                  iq_fields := [("value", VInt 1); ("tag", VStr "new")];
                  iq_tags := []; iq_time_stamp := 0 |};
               {| iq_table := Demo.table_of "A";
                  iq_fields := [("value", VInt 2); ("tag", VStr "new")];
                  iq_tags := []; iq_time_stamp := 0 |}])];
          calls := [query "SELECT" "sppmon"; query "DELETE" "sppmon"] |}).
Proof.
  destruct (update_row_deletes_before_writing Demo2.answering Demo2.tools Demo.client
              "A" [("tag", "new")] None None Demo.fresh [[[VInt 1]; [VInt 2]]])
    as (s' & Hrun & _); try done.
  eexists. reflexivity.
Defined.

(** ** The safeguard as an invariant, and what a flush records *)

Section MoreInvariants.
Variable w : World.
Implicit Types (self : InfluxClient) (s : Store).

Lemma only_metrics_pending self table buffer :
  only_metrics self buffer -> table <> __metrics_table self ->
  dict_get table buffer = None.
Proof.
  intros (metrics & -> & _) Hne. destruct metrics as [|m metrics]; [done|].
  cbn. by rewrite decide_False.
Qed.

(** The record number [n] of a flush is about the table number [n],
    and about that table's request. *)
Lemma flush_metrics_record self history buffer (n : nat) item m :
  Forall (fun item => item.2 <> []) buffer ->
  buffer !! n = Some item ->
  flush_metrics w self history (snapshot w buffer) !! n = Some m ->
  records_batch w self
    (history ++ flush_requests self (snapshot w (take n buffer))) item m.
Proof.
  intros Hall. revert history n.
  induction Hall as [|[table queries] buffer Hq _ IH]; intros history n; [done|].
  destruct n as [|n]; cbn [snapshot map flush_metrics fst snd].
  - intros [= <-] [= <-]. cbn [take snapshot map flush_requests].
    rewrite app_nil_r. split; [done|]. split; [done|]. split; [done|].
    eexists. cbn [fst snd]. unfold len. rewrite length_map. split; [done|].
    apply duration_ms_whole. cbn in Hq. destruct queries; [done|cbn; lia].
  - intros Hitem Hm. cbn [take snapshot map flush_requests fst snd].
    change (history ++ ?request :: ?rest) with (history ++ [request] ++ rest).
    rewrite app_assoc. by apply IH.
Qed.
End MoreInvariants.

(** The safeguard bounds what is kept for a table: for a table other
    than the metrics table with at most 5 x 10000 pending records, any
    call of [insert_dicts_to_buffer] for it, whatever its arguments and
    its outcome, leaves at most 5 x 10000 records pending for it. *)
Theorem insert_dicts_keeps_safeguard (w : World) (self : InfluxClient)
    (table_name : string) (list_with_dicts : option (list Row)) (s : Store) :
  let table := db_getitem (database self) table_name in
  table <> __metrics_table self ->
  pending table s <= 5 * 10000 ->
  pending table (insert_dicts_to_buffer w self table_name list_with_dicts s).2
  <= 5 * 10000.
Proof.
  intros table Hmt Hpending.
  destruct list_with_dicts as [rows|]; [|done].
  destruct (decide (table_name = "")) as [->|Hname]; [done|].
  destruct rows as [|mydict rows].
  { unfold insert_dicts_to_buffer. by rewrite decide_False by done. }
  rewrite insert_dicts_unfold by done. fold table.
  change (5 * __query_max_batch_size) with (5 * 10000).
  destruct (_ >? _) eqn:E.
  - destruct (flush_insert_buffer w self _) as [r s'] eqn:Hf. cbn [snd].
    apply flush_drains in Hf.
    + unfold pending. by rewrite (only_metrics_pending self table _ Hf Hmt).
    + pose proof (appended_lookup w self table_name (mydict :: rows) s) as Hlook.
      intros Hnil. cbn zeta in Hlook. by rewrite Hnil in Hlook.
  - cbn [snd]. rewrite Z.gtb_ltb in E. apply Z.ltb_ge in E. done.
Qed.

Lemma insert_dicts_keeps_safeguard_witness :
  pending (Demo.table_of "A")
    (insert_dicts_to_buffer Demo.calm Demo.client "A" (Some [Demo.row; Demo.row])
       Demo.two_tables).2 <= 5 * 10000.
Proof.
  apply (insert_dicts_keeps_safeguard Demo.calm Demo.client "A"
           (Some [Demo.row; Demo.row]) Demo.two_tables).
  - discriminate.
  - vm_compute. discriminate.
Defined.

(** With a driver that raises no transport error, positive measured
    durations and no empty sequence, a flush of a non-empty buffer
    returns, whether the server accepted the batches or not, and leaves
    one metrics record per flushed table, in the order of the tables.
    The record of the table number [n] carries the keyword INSERT, the
    table's name, its number of lines, the clock reading taken after
    the table's request, and a duration in milliseconds equal to 1000
    times the seconds measured around the table's own request, the one
    made after the requests of the [n] tables before it. *)
Theorem flush_records_each_table (w : World) (self : InfluxClient) (s : Store) :
  no_connection_error w -> positive_durations w ->
  Forall (fun item => item.2 <> []) (__insert_buffer s) ->
  __insert_buffer s <> [] ->
  exists metrics,
    flush_insert_buffer w self s
    = (Return tt,
       {| __insert_buffer := [(__metrics_table self, metrics)];
          calls := calls s ++ flush_requests self (snapshot w (__insert_buffer s)) |}) /\
    length metrics = length (__insert_buffer s) /\
    forall (n : nat) item m,
      __insert_buffer s !! n = Some item ->
      metrics !! n = Some m ->
      records_batch w self
        (calls s ++ flush_requests self (snapshot w (take n (__insert_buffer s))))
        item m.
Proof.
  intros Hconn Hpos Hall Hne.
  exists (flush_metrics w self (calls s) (snapshot w (__insert_buffer s))).
  assert (length (flush_metrics w self (calls s) (snapshot w (__insert_buffer s)))
          = length (__insert_buffer s)) as Hlen
    by (by rewrite flush_metrics_length, snapshot_length).
  split; [|split; [done|]].
  - rewrite flush_isolates_influx_errors by done.
    unfold flushed. cbn [set_buffer __insert_buffer calls].
    rewrite with_metrics_fresh; [done|].
    intros Hnil. rewrite Hnil in Hlen. by destruct (__insert_buffer s).
  - intros n item m Hitem Hm. by apply flush_metrics_record.
Qed.

Lemma flush_records_each_table_witness :
  exists metrics_a metrics_b d_a d_b,
    flush_insert_buffer Demo2.slowing Demo.client Demo.two_tables
    = (Return tt,
       {| __insert_buffer := [(__metrics_table Demo.client, [metrics_a; metrics_b])];
          calls := [write_request Demo.client (Demo.table_of "A") ["A"];
                    write_request Demo.client (Demo.table_of "B") ["B"]] |}) /\
    iq_fields metrics_a = [("duration_ms", VFloat d_a); ("item_count", VInt 1)] /\
    (d_a == 1000)%Q /\ iq_time_stamp metrics_a = 1 /\
    iq_fields metrics_b = [("duration_ms", VFloat d_b); ("item_count", VInt 1)] /\
    (d_b == 2000)%Q /\ iq_time_stamp metrics_b = 2 /\
    records_batch Demo2.slowing Demo.client []
      (Demo.table_of "A", [Demo.record "A"]) metrics_a /\
    records_batch Demo2.slowing Demo.client
      [write_request Demo.client (Demo.table_of "A") ["A"]]
      (Demo.table_of "B", [Demo.record "B"]) metrics_b.
Proof.
  destruct (flush_records_each_table Demo2.slowing Demo.client Demo.two_tables)
    as (metrics & Hrun & Hlen & Hrec).
  - by intros history request.
  - intros history. cbn. unfold Qlt. cbn. lia.
  - by repeat constructor.
  - done.
  - injection Hrun as Hmetrics. eexists _, _, _, _.
    split; [reflexivity|]. split; [reflexivity|]. split; [reflexivity|].
    split; [reflexivity|]. split; [reflexivity|]. split; [reflexivity|].
    split; [reflexivity|]. rewrite <- Hmetrics in Hrec. split.
    + exact (Hrec 0%nat _ _ eq_refl eq_refl).
    + exact (Hrec 1%nat _ _ eq_refl eq_refl).
Defined.
